(** * streaming-lab: the OpenCV basics notebook

    A shallow embedding of [notebooks/opencv-basics.ipynb].  The notebook
    is sequential Python that calls into OpenCV ([cv2]), NumPy, darkflow,
    matplotlib and ipywidgets.  Python objects live in a store of arrays
    (so that [np.copy] and the in-place [cv2.rectangle] can be told apart),
    exceptions are an explicit outcome, and every call that leaves the
    notebook is recorded in a trace.  The external libraries are a
    parameter of the development: a record of content-level functions,
    with the facts of their documentation that a proof relies on stated
    as named laws. *)

From Stdlib Require Import ZArith NArith String List Bool Lia.
From Stdlib Require Import Floats.SpecFloat.
From stdpp Require Import base option list gmap strings.

Set Warnings "-register-all".
#[local] Open Scope string_scope.
#[local] Open Scope list_scope.
#[local] Open Scope Z_scope.

(** ** Python values *)

(** References into the array store. *)
Definition loc := nat.

(** The Python values the notebook handles.  Floats are binary64 values in
    the representation of the Standard Library's [spec_float]. *)
Inductive pyval :=
| VNone
| VInt (z : Z)
| VFloat (f : spec_float)
| VStr (s : string)
| VArr (r : loc)
| VTuple (l : list pyval)
| VList (l : list pyval)
| VDict (d : gmap string pyval).

Definition is_None (v : pyval) : bool :=
  match v with VNone => true | _ => false end.

(** Exceptions.  [cv2_error] and [LibraryError] are what the external
    libraries raise; [Dangling] is not a Python exception: it is the
    outcome of the model for a reference outside the store, which no
    Python program can hold. *)
Inductive exn :=
| KeyError (key : string)
| TypeError (msg : string)
| IndexError (msg : string)
| ValueError (msg : string)
| OverflowError (msg : string)
| ZeroDivisionError
| FileNotFoundError (path : string)
| cv2_error (msg : string)
| LibraryError (lib msg : string)
| Dangling (r : loc).

Inductive result (A : Type) :=
| Ok (a : A)
| Raise (e : exn).
Arguments Ok {A} a.
Arguments Raise {A} e.

(** [v[k]] for a string key [k]. *)
Definition subscript (v : pyval) (k : string) : result pyval :=
  match v with
  | VDict d =>
      match d !! k with
      | Some x => Ok x
      | None => Raise (KeyError k)
      end
  | VArr _ => Raise (IndexError "only integers, slices, ellipsis, newaxis and integer or boolean arrays are valid indices")
  | VStr _ => Raise (TypeError "string indices must be integers")
  | VTuple _ => Raise (TypeError "tuple indices must be integers or slices, not str")
  | VList _ => Raise (TypeError "list indices must be integers or slices, not str")
  | VNone | VInt _ | VFloat _ => Raise (TypeError "object is not subscriptable")
  end.

(** [t[i]] for a shape tuple [t] and a literal index [i]. *)
Definition tuple_index (t : list N) (i : nat) : result Z :=
  match t !! i with
  | Some d => Ok (Z.of_N d)
  | None => Raise (IndexError "tuple index out of range")
  end.

(** ** Python's [/] and [int] on numbers

    [a / b] on two Python ints is true division: the binary64 value
    nearest to the exact quotient, ties to even.  [round_quotient] computes
    it for positive operands: the quotient is taken with 55 or 56
    significant bits and a sticky bit, then rounded to 53.  Overflow and
    underflow of binary64 are outside the definition: they need a quotient
    beyond [2^1023] or below [2^-1022], and array dimensions are below
    [2^63]. *)
Definition round_quotient (s : bool) (a b : Z) : spec_float :=
  let e := Z.log2 a - Z.log2 b - 55 in
  let num := if 0 <=? e then a else a * 2 ^ (- e) in
  let den := if 0 <=? e then b * 2 ^ e else b in
  let q := num / den in
  let sticky := if num mod den =? 0 then 0 else 1 in
  let n := 2 * q + sticky in
  let d := Z.log2 n - 52 in
  let m0 := n / 2 ^ d in
  let rem := n mod 2 ^ d in
  let half := 2 ^ (d - 1) in
  let m := if (half <? rem) || ((rem =? half) && Z.odd m0) then m0 + 1 else m0 in
  if m =? 2 ^ 53
  then S754_finite s (Z.to_pos (2 ^ 52)) (e + d)
  else S754_finite s (Z.to_pos m) (e - 1 + d).

Definition py_truediv (a b : Z) : result spec_float :=
  if b =? 0 then Raise ZeroDivisionError
  else if a =? 0 then Ok (S754_zero (b <? 0))
  else Ok (round_quotient (xorb (a <? 0) (b <? 0)) (Z.abs a) (Z.abs b)).

(** [int(x)] on a float truncates toward zero. *)
Definition py_int (x : spec_float) : result Z :=
  match x with
  | S754_zero _ => Ok 0
  | S754_finite s m e =>
      let v := if 0 <=? e then Z.pos m * 2 ^ e else Z.pos m / 2 ^ (- e) in
      Ok (if s then - v else v)
  | S754_infinity _ => Raise (OverflowError "cannot convert float infinity to integer")
  | S754_nan => Raise (ValueError "cannot convert float NaN to integer")
  end.

(** The same quotient through the Standard Library's IEEE 754 division,
    used to cross-check [py_truediv]. *)
Definition ieee_truediv (a b : Z) : spec_float :=
  SFdiv 53 1024 (binary_normalize 53 1024 a 0 false)
                (binary_normalize 53 1024 b 0 false).

(** Agreement of [py_truediv] by 100 with the IEEE 754 quotient, bit for
    bit, and of [int] of it with the integer quotient. *)
Definition agrees_with_ieee (a : Z) : bool :=
  match py_truediv a 100, ieee_truediv a 100 with
  | Ok (S754_zero s), S754_zero s' => Bool.eqb s s'
  | Ok (S754_finite s m e), S754_finite s' m' e' =>
      Bool.eqb s s' && Pos.eqb m m' && (e =? e')
  | _, _ => false
  end.

(** [p] on every integer from [base] up to [base + 2^bits], excluded. *)
Fixpoint holds_on (bits : nat) (base : Z) (p : Z -> bool) : bool :=
  match bits with
  | O => p base
  | S k => holds_on k base p && holds_on k (base + 2 ^ Z.of_nat k) p
  end.

(** Float literals of the notebook, as binary64 values. *)
Definition float_2_5 : spec_float := S754_finite false 5629499534213120 (-51).
Definition float_1_3 : spec_float := S754_finite false 5854679515581645 (-52).
Definition float_0_1 : spec_float := S754_finite false 7205759403792794 (-56).

(** ** NumPy arrays, the store and the world *)

Inductive dtype := uint8 | int32 | float32 | float64.

(** An array: its shape, its element type and its elements in row-major
    order.  The memory layout of an array (strides, contiguity) is not
    modelled: the statements below compare the contents of arrays, and
    runs on one array and its copies. *)
Record ndarray := NdArray {
  shape : list N;
  dtype_of : dtype;
  data : list Z
}.

(** A three-dimensional array of unsigned 8-bit values
    (height x width x channel). *)
Definition is_image (a : ndarray) : Prop :=
  dtype_of a = uint8 /\ exists h w c, shape a = [h; w; c].

(** Calls that leave the notebook, with the arguments as passed. *)
Inductive call :=
| Call_imread (f : string) (flags : Z)
| Call_imdecode (buf : loc) (flags : Z)
| Call_cvtColor (src : option loc) (code : Z)
| Call_rectangle (img : loc) (pt1 pt2 : pyval * pyval) (color thickness : pyval)
| Call_np_copy (a : loc)
| Call_np_asarray (n : nat)
| Call_open (f : string)
| Call_listdir (d : string)
| Call_TFNet (options : gmap string pyval)
| Call_return_predict (img : loc)
| Call_interact (options : list string)
| Call_ext (fn : string) (args : list pyval) (kwargs : list (string * pyval)).

(** The world a cell runs in: the arrays allocated so far, the files and
    directories on disk, and the calls made so far, oldest first. *)
Record world := World {
  heap : list ndarray;
  files : gmap string (list Byte.byte);
  dirs : gmap string (list string);
  trace : list call
}.

Definition with_heap (h : list ndarray) (w : world) : world :=
  World h (files w) (dirs w) (trace w).

(** ** The monad of notebook code: state and exceptions *)

Definition M (A : Type) : Type := world -> result A * world.

Definition ret {A} (a : A) : M A := fun w => (Ok a, w).

Definition bind {A B} (m : M A) (k : A -> M B) : M B :=
  fun w =>
    match m w with
    | (Ok a, w') => k a w'
    | (Raise e, w') => (Raise e, w')
    end.

Notation "'let*' x ':=' m 'in' k" := (bind m (fun x => k))
  (at level 10, x name, m at level 100, k at level 200).
Notation "m ';;' k" := (bind m (fun _ => k))
  (at level 100, k at level 200, right associativity).

Definition lift {A} (r : result A) : M A := fun w => (r, w).

Definition log (c : call) : M unit :=
  fun w => (Ok tt, World (heap w) (files w) (dirs w) (trace w ++ [c])).

(** A new object gets the next free reference. *)
Definition alloc (a : ndarray) : M loc :=
  fun w => (Ok (length (heap w)), with_heap (heap w ++ [a]) w).

Definition deref (r : loc) : M ndarray :=
  fun w =>
    match heap w !! r with
    | Some a => (Ok a, w)
    | None => (Raise (Dangling r), w)
    end.

(** In-place update of the object at [r]. *)
Definition store (r : loc) (a : ndarray) : M unit :=
  fun w => (Ok tt, with_heap (<[r := a]> (heap w)) w).

Definition get_files : M (gmap string (list Byte.byte)) :=
  fun w => (Ok (files w), w).

Definition get_heap : M (list ndarray) :=
  fun w => (Ok (heap w), w).

(** [for x in l: body]. *)
Fixpoint for_each {A} (l : list A) (body : A -> M unit) : M unit :=
  match l with
  | [] => ret tt
  | x :: l' => body x ;; for_each l' body
  end.

Definition outcome {A} (p : result A * world) : result A := fst p.
Definition final {A} (p : result A * world) : world := snd p.

(** ** The external libraries *)

(** What a library function hands back: a plain value or a new array. *)
Inductive extres :=
| ExtVal (v : pyval)
| ExtArr (a : ndarray).

(** The libraries the notebook calls, at the level of array contents.
    [cv_imread] and [cv_imdecode] give [None] where OpenCV returns an empty
    matrix (Python's [None]).  [ext_call] stands for the calls that only
    compute or display: [cv2.blur], [cv2.resize], [cv2.getRotationMatrix2D],
    [cv2.warpAffine], [cv2.calcHist] and matplotlib's [plt] functions. *)
Record Library := {
  IMREAD_COLOR : Z;
  COLOR_BGR2RGB : Z;
  INTER_CUBIC : Z;
  cv_imread : gmap string (list Byte.byte) -> string -> Z -> result (option ndarray);
  cv_imdecode : ndarray -> Z -> result (option ndarray);
  cv_cvtColor : option ndarray -> Z -> result ndarray;
  cv_rectangle : ndarray -> pyval * pyval -> pyval * pyval -> pyval -> pyval -> result ndarray;
  tfnet : Type;
  tfnet_build : gmap string (list Byte.byte) -> gmap string pyval -> result tfnet;
  tfnet_return_predict : tfnet -> ndarray -> result (list pyval);
  ext_call : string -> list pyval -> list (string * pyval) -> list ndarray -> result extres
}.

(** [np.asarray(b, dtype=np.uint8)] on a bytearray: a flat array of its
    bytes. *)
Definition asarray_uint8 (b : list Byte.byte) : ndarray :=
  NdArray [N.of_nat (length b)] uint8 (map (fun x => Z.of_N (Byte.to_N x)) b).

Section Notebook.

Context (L : Library).

(** *** Library calls as the notebook makes them *)

Definition cv2_imread (f : string) (flags : Z) : M (option loc) :=
  log (Call_imread f flags) ;;
  let* fs := get_files in
  let* r := lift (cv_imread L fs f flags) in
  match r with
  | None => ret None
  | Some a => let* p := alloc a in ret (Some p)
  end.

Definition deref_opt (src : option loc) : M (option ndarray) :=
  match src with
  | None => ret None
  | Some r => let* a := deref r in ret (Some a)
  end.

Definition cv2_cvtColor (src : option loc) (code : Z) : M loc :=
  log (Call_cvtColor src code) ;;
  let* a := deref_opt src in
  let* d := lift (cv_cvtColor L a code) in
  alloc d.

Definition cv2_imdecode (buf : loc) (flags : Z) : M (option loc) :=
  log (Call_imdecode buf flags) ;;
  let* b := deref buf in
  let* r := lift (cv_imdecode L b flags) in
  match r with
  | None => ret None
  | Some a => let* p := alloc a in ret (Some p)
  end.

(** [cv2.rectangle] draws into the array it is given. *)
Definition cv2_rectangle (img : loc) (pt1 pt2 : pyval * pyval)
    (color thickness : pyval) : M loc :=
  log (Call_rectangle img pt1 pt2 color thickness) ;;
  let* a := deref img in
  let* a' := lift (cv_rectangle L a pt1 pt2 color thickness) in
  store img a' ;;
  ret img.

Definition np_copy (a : loc) : M loc :=
  log (Call_np_copy a) ;;
  let* x := deref a in
  alloc x.

Definition np_asarray_uint8 (b : list Byte.byte) : M loc :=
  log (Call_np_asarray (length b)) ;;
  alloc (asarray_uint8 b).

(** [with open(f, "rb") as h: bytearray(h.read())]. *)
Definition open_read (f : string) : M (list Byte.byte) :=
  log (Call_open f) ;;
  let* fs := get_files in
  match fs !! f with
  | Some b => ret b
  | None => lift (Raise (FileNotFoundError f))
  end.

Definition listdir (d : string) : M (list string) :=
  log (Call_listdir d) ;;
  fun w =>
    match dirs w !! d with
    | Some names => (Ok names, w)
    | None => (Raise (FileNotFoundError d), w)
    end.

Definition TFNet (options : gmap string pyval) : M (tfnet L) :=
  log (Call_TFNet options) ;;
  let* fs := get_files in
  lift (tfnet_build L fs options).

Definition return_predict (yolo : tfnet L) (img : loc) : M (list pyval) :=
  log (Call_return_predict img) ;;
  let* a := deref img in
  lift (tfnet_return_predict L yolo a).

Definition ext (fn : string) (args : list pyval) (kwargs : list (string * pyval)) : M pyval :=
  log (Call_ext fn args kwargs) ;;
  let* h := get_heap in
  let* r := lift (ext_call L fn args kwargs h) in
  match r with
  | ExtVal v => ret v
  | ExtArr a => let* p := alloc a in ret (VArr p)
  end.

(** [a.shape]. *)
Definition shape_of (a : loc) : M (list N) :=
  let* x := deref a in ret (shape x).

(** *** The notebook's two functions on images *)

(** [loadImage(f)]: [cv2.cvtColor(cv2.imread(f, cv2.IMREAD_COLOR),
    cv2.COLOR_BGR2RGB)]. *)
Definition loadImage (f : string) : M loc :=
  let* src := cv2_imread f (IMREAD_COLOR L) in
  cv2_cvtColor src (COLOR_BGR2RGB L).

Definition white : pyval := VTuple [VInt 255; VInt 255; VInt 255].

(** [int(a / b)] on two ints. *)
Definition int_truediv (a b : Z) : result Z :=
  match py_truediv a b with
  | Ok q => py_int q
  | Raise e => Raise e
  end.

(** The value [annotate] gives [thickness] when the caller left it out:
    [int(max(img.shape[0], img.shape[1]) / 100)]. *)
Definition default_thickness (img : loc) : M pyval :=
  let* s0 := shape_of img in
  let* h := lift (tuple_index s0 0) in
  let* s1 := shape_of img in
  let* w := lift (tuple_index s1 1) in
  let* t := lift (int_truediv (Z.max h w) 100) in
  ret (VInt t).

(** The body of the loop of [annotate]: read the box of one detection and
    draw it in white. *)
Definition draw_box (annotated_img : loc) (thickness : pyval) (prediction : pyval) : M unit :=
  let* tl := lift (subscript prediction "topleft") in
  let* tlx := lift (subscript tl "x") in
  let* tly := lift (subscript tl "y") in
  let* br := lift (subscript prediction "bottomright") in
  let* brx := lift (subscript br "x") in
  let* bry := lift (subscript br "y") in
  cv2_rectangle annotated_img (tlx, tly) (brx, bry) white thickness ;;
  ret tt.

(** [annotate(img, predictions, thickness=None)]. *)
Definition annotate (img : loc) (predictions : list pyval) (thickness : pyval) : M loc :=
  let* annotated_img := np_copy img in
  let* thickness :=
    (if is_None thickness then default_thickness img else ret thickness) in
  for_each predictions (draw_box annotated_img thickness) ;;
  ret annotated_img.

(** [predict(imageFile)], with the global [yolo] as a parameter. *)
Definition predict (yolo : tfnet L) (imageFile : string) : M (list pyval) :=
  let* image := loadImage ("/data/images/" +:+ imageFile) in
  let* predictions := return_predict yolo image in
  let* annotated := annotate image predictions (VInt 5) in
  ext "plt.imshow" [VArr annotated] [] ;;
  ret predictions.

(** *** The cells, in order *)

(** [img = loadImage("otto.jpg")]. *)
Definition cell_load : M loc := loadImage "otto.jpg".

(** [img.shape], then [plt.imshow(img)]. *)
Definition cell_show (img : loc) : M unit :=
  shape_of img ;;
  ext "plt.imshow" [VArr img] [] ;;
  ret tt.

(** The box blur and the two resizes. *)
Definition cell_blur_resize (img : loc) : M unit :=
  let* blurred := ext "cv2.blur" [VArr img; VTuple [VInt 15; VInt 15]] [] in
  ext "plt.imshow" [blurred] [] ;;
  let* big := ext "cv2.resize" [VArr img; VNone]
                [("fx", VInt 3); ("fy", VInt 3); ("interpolation", VInt (INTER_CUBIC L))] in
  ext "plt.imshow" [big] [] ;;
  let* stretched := ext "cv2.resize" [VArr img; VNone]
                [("fx", VFloat float_2_5); ("fy", VInt 3); ("interpolation", VInt (INTER_CUBIC L))] in
  ext "plt.imshow" [stretched] [] ;;
  ret tt.

(** [rows, cols, _ = img.shape]. *)
Definition unpack3 (s : list N) : result (Z * Z * Z) :=
  match s with
  | [a; b; c] => Ok (Z.of_N a, Z.of_N b, Z.of_N c)
  | _ => Raise (ValueError "wrong number of values to unpack")
  end.

(** The rotation around the centre. *)
Definition cell_rotate (img : loc) : M unit :=
  let* s := shape_of img in
  let* rc := lift (unpack3 s) in
  let '(rows, cols, _) := rc in
  let* cx := lift (py_truediv cols 2) in
  let* cy := lift (py_truediv rows 2) in
  let center := VTuple [VFloat cx; VFloat cy] in
  let angle := VInt 15 in
  let scale := VFloat float_1_3 in
  let* rotationMatrix := ext "cv2.getRotationMatrix2D" [center; angle; scale] [] in
  let* warped := ext "cv2.warpAffine" [VArr img; rotationMatrix; VTuple [VInt cols; VInt rows]] [] in
  ext "plt.imshow" [warped] [] ;;
  ret tt.

(** The byte-buffer route: read the file's bytes, wrap them in a flat
    array, decode, convert. *)
Definition cell_read_bytes : M (list Byte.byte) := open_read "otto.jpg".

Definition cell_asarray (img_bytes : list Byte.byte) : M loc :=
  np_asarray_uint8 img_bytes.

Definition cell_decode (imgarr : loc) : M loc :=
  let* img2 := cv2_imdecode imgarr (IMREAD_COLOR L) in
  cv2_cvtColor img2 (COLOR_BGR2RGB L).

(** The three cells of the byte-buffer route in sequence, for a file [f]. *)
Definition byte_route (f : string) : M loc :=
  let* img_bytes := open_read f in
  let* imgarr := np_asarray_uint8 img_bytes in
  let* img2 := cv2_imdecode imgarr (IMREAD_COLOR L) in
  cv2_cvtColor img2 (COLOR_BGR2RGB L).

(** The per-channel histograms. *)
Definition cell_histogram (img : loc) : M unit :=
  for_each [(0, "r"); (1, "g"); (2, "b")] (fun '(i, color) =>
    let* histogram := ext "cv2.calcHist"
        [VList [VArr img]; VList [VInt i]; VNone; VList [VInt 256]; VList [VInt 0; VInt 256]] [] in
    ext "plt.plot" [histogram] [("color", VStr color)] ;;
    ext "plt.xlim" [VList [VInt 0; VInt 256]] [] ;;
    ret tt) ;;
  ext "plt.show" [] [] ;;
  ret tt.

Definition options : gmap string pyval :=
  list_to_map [("model", VStr "cfg/yolo.cfg");
               ("load", VStr "/data/yolo.weights");
               ("threshold", VFloat float_0_1)].

(** [yolo = TFNet(options)]. *)
Definition cell_model : M (tfnet L) := TFNet options.

(** [predictions = yolo.return_predict(img)], then
    [plt.imshow(annotate(img, predictions))]. *)
Definition cell_detect (yolo : tfnet L) (img : loc) : M (list pyval) :=
  let* predictions := return_predict yolo img in
  let* annotated := annotate img predictions VNone in
  ext "plt.imshow" [VArr annotated] [] ;;
  ret predictions.

(** A widget callback: an exception it raises is shown as a traceback in
    the output area and the widget stays live. *)
Definition callback {A} (m : M A) : M unit :=
  fun w => (Ok tt, final (m w)).

(** The callback runs once for each selection of the drop-down. *)
Fixpoint select {A} (f : string -> M A) (choices : list string) (picks : list nat) : M unit :=
  match picks with
  | [] => ret tt
  | i :: rest =>
      match choices !! i with
      | Some c => callback (f c)
      | None => ret tt
      end ;;
      select f choices rest
  end.

(** [interact(f, imageFile=choices)]: a drop-down over [choices]; the
    callback runs on the first entry when the widget is shown and again on
    each entry the user picks ([picks], as positions in [choices]). *)
Definition interact {A} (f : string -> M A) (choices : list string) (picks : list nat) : M unit :=
  log (Call_interact choices) ;;
  select f choices (0%nat :: picks).

(** [interact(predict, imageFile = listdir("/data/images/"))]. *)
Definition cell_interact (yolo : tfnet L) (picks : list nat) : M unit :=
  let* names := listdir "/data/images/" in
  interact (predict yolo) names picks.

(** The notebook run from top to bottom; a cell that raises stops the
    run.  [picks] is what the user selects in the widget of the last
    cell. *)
Definition notebook (picks : list nat) : M unit :=
  let* img := cell_load in
  cell_show img ;;
  cell_blur_resize img ;;
  cell_rotate img ;;
  let* img_bytes := cell_read_bytes in
  let* imgarr := cell_asarray img_bytes in
  let* img2 := cell_decode imgarr in
  ext "plt.imshow" [VArr img2] [] ;;
  cell_histogram img ;;
  let* yolo := cell_model in
  let* predictions := cell_detect yolo img in
  cell_interact yolo picks.

(** *** The routines as the specification words them *)

(** The load-and-convert routine as a composition of the two library
    functions on array contents: decode, then convert. *)
Definition loadImage_composition (fs : gmap string (list Byte.byte)) (f : string) : result ndarray :=
  match cv_imread L fs f (IMREAD_COLOR L) with
  | Ok src => cv_cvtColor L src (COLOR_BGR2RGB L)
  | Raise e => Raise e
  end.

(** The drawing routine as direct delegation with no conditional of its
    own: copy, then one [cv2.rectangle] per detection, every argument
    passed on as received. *)
Definition annotate_delegation (img : loc) (predictions : list pyval) (thickness : pyval) : M loc :=
  let* annotated_img := np_copy img in
  for_each predictions (draw_box annotated_img thickness) ;;
  ret annotated_img.


End Notebook.

(** Both agreements at once, for the dimension [a]. *)
Definition quotient_ok (a : Z) : bool :=
  agrees_with_ieee a &&
  match int_truediv a 100 with
  | Ok t => t =? a / 100
  | Raise _ => false
  end.

(** ** Observations on a run *)

Definition string_of (v : option pyval) : list string :=
  match v with
  | Some (VStr s) => [s]
  | _ => []
  end.

(** The paths a call hands to the file system. *)
Definition fs_reads (c : call) : list string :=
  match c with
  | Call_imread f _ => [f]
  | Call_open f => [f]
  | Call_listdir d => [d]
  | Call_TFNet o => string_of (o !! "model") ++ string_of (o !! "load")
  | _ => []
  end.

Definition paths_read (t : list call) : list string :=
  concat (map fs_reads t).

(** The path literals of the notebook's source. *)
Definition literal_paths : list string :=
  ["otto.jpg"; "cfg/yolo.cfg"; "/data/yolo.weights"; "/data/images/"].

(** The thickness argument of each [cv2.rectangle] call of a trace. *)
Definition rectangle_thickness (c : call) : list pyval :=
  match c with
  | Call_rectangle _ _ _ _ t => [t]
  | _ => []
  end.

(** The array each [cv2.rectangle] call of a trace draws into. *)
Definition rectangle_target (c : call) : list loc :=
  match c with
  | Call_rectangle r _ _ _ _ => [r]
  | _ => []
  end.

(** The calls a computation adds to the trace of the world it starts in. *)
Definition new_calls {A} (m : M A) (w : world) : list call :=
  drop (length (trace w)) (trace (final (m w))).

(** Two detection records with the same box: dictionaries that agree on
    the fields ["topleft"] and ["bottomright"], whatever else they hold. *)
Definition same_box (p q : pyval) : Prop :=
  exists d e, p = VDict d /\ q = VDict e /\
    d !! "topleft" = e !! "topleft" /\ d !! "bottomright" = e !! "bottomright".

(** What the caller sees of a run that returns a reference: the array it
    denotes, or the exception. *)
Definition observe (p : result loc * world) : result (option ndarray) :=
  match p with
  | (Ok r, w) => Ok (heap w !! r)
  | (Raise e, _) => Raise e
  end.

(** The box [annotate] reads from one detection: the two corner points, or
    the exception of the first failing subscript. *)
Definition box_of (prediction : pyval) : result ((pyval * pyval) * (pyval * pyval)) :=
  match subscript prediction "topleft" with
  | Raise e => Raise e
  | Ok tl =>
  match subscript tl "x" with
  | Raise e => Raise e
  | Ok tlx =>
  match subscript tl "y" with
  | Raise e => Raise e
  | Ok tly =>
  match subscript prediction "bottomright" with
  | Raise e => Raise e
  | Ok br =>
  match subscript br "x" with
  | Raise e => Raise e
  | Ok brx =>
  match subscript br "y" with
  | Raise e => Raise e
  | Ok bry => Ok ((tlx, tly), (brx, bry))
  end end end end end end.

(** The default thickness as a function of the shape of the image. *)
Definition default_of_shape (s : list N) : result pyval :=
  match tuple_index s 0 with
  | Raise e => Raise e
  | Ok h =>
  match tuple_index s 1 with
  | Raise e => Raise e
  | Ok w =>
  match int_truediv (Z.max h w) 100 with
  | Raise e => Raise e
  | Ok t => Ok (VInt t)
  end end end.

(** The thickness [annotate] draws with, for an image [a]. *)
Definition resolved (thickness : pyval) (a : ndarray) : result pyval :=
  if is_None thickness then default_of_shape (shape a) else Ok thickness.

(** The world after [np.copy(img)], where [img] holds [a]. *)
Definition copied (img : loc) (a : ndarray) (w : world) : world :=
  World (heap w ++ [a]) (files w) (dirs w) (trace w ++ [Call_np_copy img]).

(** The thickness arguments of the [cv2.rectangle] calls of a trace. *)
Definition thicknesses (t : list call) : list pyval :=
  concat (map rectangle_thickness t).

(** What the caller sees when a routine on array contents is run in the
    store: the new array, or the exception. *)
Definition returned (r : result ndarray) : result (option ndarray) :=
  match r with
  | Ok a => Ok (Some a)
  | Raise e => Raise e
  end.

(** [m] leaves the directories [ds] as they are, hands only paths of [P]
    to the file system, and returns only values of [Q]. *)
Definition emits {A} (ds : gmap string (list string)) (P : string -> Prop)
    (m : M A) (Q : A -> Prop) : Prop :=
  forall w, dirs w = ds ->
    dirs (final (m w)) = ds /\
    (exists evs, trace (final (m w)) = trace w ++ evs /\ Forall P (paths_read evs)) /\
    (forall a, outcome (m w) = Ok a -> Q a).

(** The paths the notebook may read when the image directory lists
    [ds]: a path literal of the source, or the image directory followed by
    one of the names it lists. *)
Definition notebook_path (ds : gmap string (list string)) (p : string) : Prop :=
  p ∈ literal_paths \/
  exists names name,
    ds !! "/data/images/" = Some names /\ name ∈ names /\ p = "/data/images/" +:+ name.

(** A call of [cv2.rectangle] on [r], in white, with thickness [t]. *)
Definition rect_call (r : loc) (t : pyval) (c : call) : Prop :=
  exists p1 p2, c = Call_rectangle r p1 p2 white t.

(** [w'] is [w] after the calls [evs], which touched no array but [r]. *)
Record drawn (r : loc) (w w' : world) (evs : list call) : Prop := Drawn {
  drawn_files : files w' = files w;
  drawn_dirs : dirs w' = dirs w;
  drawn_length : length (heap w') = length (heap w);
  drawn_others : forall j, j <> r -> heap w' !! j = heap w !! j;
  drawn_trace : trace w' = trace w ++ evs
}.

(** ** The drawing loop on array contents *)

(** The loop of [annotate] on the contents of the copy: the outcome of the
    loop and the pixels it leaves, for thickness [t]. *)
Fixpoint paint (L : Library) (t : pyval) (ps : list pyval) (a : ndarray)
  : result unit * ndarray :=
  match ps with
  | [] => (Ok tt, a)
  | p :: ps' =>
      match box_of p with
      | Raise e => (Raise e, a)
      | Ok (p1, p2) =>
          match cv_rectangle L a p1 p2 white t with
          | Raise e => (Raise e, a)
          | Ok a' => paint L t ps' a'
          end
      end
  end.

(** What the caller of [annotate] sees, from the contents [a] of the
    image. *)
Definition picture_of (L : Library) (t : pyval) (ps : list pyval) (a : ndarray)
  : result (option ndarray) :=
  match resolved t a with
  | Raise e => Raise e
  | Ok t' =>
      match paint L t' ps a with
      | (Ok _, a') => Ok (Some a')
      | (Raise e, _) => Raise e
      end
  end.

(** ** Relations between the world before and after a computation *)

(** [m] takes every world to one that [R] relates to it. *)
Definition respects {A} (R : world -> world -> Prop) (m : M A) : Prop :=
  forall w, R w (final (m w)).

(** The world after the call [c] is recorded. *)
Definition logged (c : call) (w : world) : world :=
  World (heap w) (files w) (dirs w) (trace w ++ [c]).

(** The store only grows: every array of [w] is in [w'], at the same
    reference and with the same contents. *)
Definition store_grows (w w' : world) : Prop :=
  heap w `prefix_of` heap w'.

(** [w'] is [w] after some calls, all of them in [P]. *)
Definition calls_added (P : call -> Prop) (w w' : world) : Prop :=
  exists evs, trace w' = trace w ++ evs /\ Forall P evs.

(** A call that hands no path to the file system. *)
Definition reads_nothing (c : call) : Prop := fs_reads c = [].

(** A [cv2.rectangle] call, if it is one, is in white with thickness
    [t]. *)
Definition draws_with (t : pyval) (c : call) : Prop :=
  match c with
  | Call_rectangle _ _ _ color thickness => color = white /\ thickness = t
  | _ => True
  end.

(** The [cv2.rectangle] call that draws the box [b] into [r]. *)
Definition rectangle_call (r : loc) (t : pyval) (b : (pyval * pyval) * (pyval * pyval)) : call :=
  Call_rectangle r (fst b) (snd b) white t.

(** What a relation between worlds needs for the computations built from
    [ret], [bind], recorded calls and allocation to respect it; [okc] says
    which calls may be recorded. *)
Record Steps (R : world -> world -> Prop) (okc : call -> Prop) : Prop := {
  steps_refl : forall w, R w w;
  steps_trans : forall w1 w2 w3, R w1 w2 -> R w2 w3 -> R w1 w3;
  steps_log : forall w c, okc c -> R w (logged c w);
  steps_alloc : forall w a, R w (with_heap (heap w ++ [a]) w)
}.

(** The cells of the notebook that follow [img = loadImage("otto.jpg")]. *)
Definition after_load (L : Library) (picks : list nat) (img : loc) : M unit :=
  cell_show L img ;;
  cell_blur_resize L img ;;
  cell_rotate L img ;;
  let* img_bytes := cell_read_bytes in
  let* imgarr := cell_asarray img_bytes in
  let* img2 := cell_decode L imgarr in
  ext L "plt.imshow" [VArr img2] [] ;;
  cell_histogram L img ;;
  let* yolo := cell_model L in
  let* predictions := cell_detect L yolo img in
  cell_interact L yolo picks.

(** What [predict] does once the image is loaded. *)
Definition after_image (L : Library) (yolo : tfnet L) (image : loc) : M (list pyval) :=
  let* predictions := return_predict L yolo image in
  let* annotated := annotate L image predictions (VInt 5) in
  ext L "plt.imshow" [VArr annotated] [] ;;
  ret predictions.

(** ** Facts of the libraries' documentation used by the proofs *)

(** [cv2.rectangle] draws into the pixels of the array it is given: the
    array keeps its shape and element type. *)
Definition rectangle_in_place (L : Library) : Prop :=
  forall a pt1 pt2 color thickness a',
    cv_rectangle L a pt1 pt2 color thickness = Ok a' ->
    shape a' = shape a /\ dtype_of a' = dtype_of a.

(** [cv2.imread] with [IMREAD_COLOR] always converts the image to three
    channels of 8 bits. *)
Definition imread_color (L : Library) : Prop :=
  forall fs f a,
    cv_imread L fs f (IMREAD_COLOR L) = Ok (Some a) ->
    dtype_of a = uint8 /\ exists h w, shape a = [h; w; 3%N].

(** [cv2.cvtColor] with [COLOR_BGR2RGB] on a three-channel source gives
    an image of the size and depth of its source.  (A four-channel source
    loses its fourth channel: nothing is said about it.) *)
Definition cvtColor_same_size (L : Library) : Prop :=
  forall a a' h w,
    shape a = [h; w; 3%N] ->
    cv_cvtColor L (Some a) (COLOR_BGR2RGB L) = Ok a' ->
    shape a' = shape a /\ dtype_of a' = dtype_of a.

(** [cv2.cvtColor] raises on an empty source. *)
Definition cvtColor_rejects_None (L : Library) : Prop :=
  forall code, exists e, cv_cvtColor L None code = Raise e.

(** [cv2.imread] returns an empty matrix for a file it cannot open. *)
Definition imread_missing (L : Library) : Prop :=
  forall fs f flags, fs !! f = None -> cv_imread L fs f flags = Ok None.



(** ** A small instance of the libraries

    An executable stand-in for the libraries, on which the statements
    below are run: images are stored as two size bytes followed by the
    pixels, decoding from a buffer refuses an empty buffer, colour
    conversion swaps the first and third channel (and drops a fourth), and
    a rectangle is a one-pixel outline. *)
Module Reference.

(** A buffer [h; w; pixels] of [h * w * 3] pixels decodes to an image. *)
Definition decode (buf : list Z) : option ndarray :=
  match buf with
  | h :: w :: px =>
      if (0 <? h) && (0 <? w) && (Z.of_nat (length px) =? h * w * 3)
      then Some (NdArray [Z.to_N h; Z.to_N w; 3%N] uint8 px)
      else None
  | _ => None
  end.

Definition imread (fs : gmap string (list Byte.byte)) (f : string) (flags : Z)
  : result (option ndarray) :=
  match fs !! f with
  | Some b => Ok (decode (data (asarray_uint8 b)))
  | None => Ok None
  end.

Definition imdecode (buf : ndarray) (flags : Z) : result (option ndarray) :=
  match data buf with
  | [] => Raise (cv2_error "(-215) !buf.empty() in function imdecode_")
  | _ => Ok (decode (data buf))
  end.

Fixpoint swap_channels (fuel : nat) (px : list Z) : list Z :=
  match fuel, px with
  | S n, b :: g :: r :: rest => r :: g :: b :: swap_channels n rest
  | _, _ => px
  end.

Fixpoint swap_drop_channels (fuel : nat) (px : list Z) : list Z :=
  match fuel, px with
  | S n, b :: g :: r :: _ :: rest => r :: g :: b :: swap_drop_channels n rest
  | _, _ => []
  end.

Definition cvtColor (src : option ndarray) (code : Z) : result ndarray :=
  match src with
  | None => Raise (cv2_error "(-215) scn == 3 || scn == 4 in function cvtColor")
  | Some a =>
      match shape a with
      | [_; _; 3%N] => Ok (NdArray (shape a) (dtype_of a) (swap_channels (length (data a)) (data a)))
      | [h; w; 4%N] =>
          Ok (NdArray [h; w; 3%N] (dtype_of a) (swap_drop_channels (length (data a)) (data a)))
      | _ => Raise (cv2_error "(-215) scn == 3 || scn == 4 in function cvtColor")
      end
  end.

(** Is the element at flat position [i] of an image of width [w] on the
    outline of the box from [(x1, y1)] to [(x2, y2)]? *)
Definition on_outline (w x1 y1 x2 y2 : Z) (i : nat) : bool :=
  let x := (Z.of_nat i / 3) mod w in
  let y := Z.of_nat i / (3 * w) in
  (x1 <=? x) && (x <=? x2) && (y1 <=? y) && (y <=? y2) &&
  ((x =? x1) || (x =? x2) || (y =? y1) || (y =? y2)).

Definition rectangle (a : ndarray) (pt1 pt2 : pyval * pyval) (color thickness : pyval)
  : result ndarray :=
  match pt1, pt2, shape a with
  | (VInt x1, VInt y1), (VInt x2, VInt y2), [_; w; 3%N] =>
      Ok (NdArray (shape a) (dtype_of a)
            (imap (fun i v => if on_outline (Z.of_N w) x1 y1 x2 y2 i then 255 else v) (data a)))
  | (VInt _, VInt _), (VInt _, VInt _), _ =>
      Raise (cv2_error "unsupported array layout in function rectangle")
  | _, _, _ => Raise (TypeError "an integer is required")
  end.

Definition path_present (fs : gmap string (list Byte.byte)) (v : option pyval) : bool :=
  match v with
  | Some (VStr s) => bool_decide (is_Some (fs !! s))
  | _ => false
  end.

(** The model object is the options it was built from. *)
Definition build (fs : gmap string (list Byte.byte)) (o : gmap string pyval)
  : result (gmap string pyval) :=
  if path_present fs (o !! "model") && path_present fs (o !! "load")
  then Ok o
  else Raise (LibraryError "darkflow" "configuration or weights not found").

Definition point (x y : Z) : pyval :=
  VDict (list_to_map [("x", VInt x); ("y", VInt y)]).

Definition detection (label : string) (confidence : spec_float) (x1 y1 x2 y2 : Z) : pyval :=
  VDict (list_to_map [("label", VStr label);
                      ("confidence", VFloat confidence);
                      ("topleft", point x1 y1);
                      ("bottomright", point x2 y2)]).

(** One detection covering the whole image. *)
Definition detect (yolo : gmap string pyval) (a : ndarray) : result (list pyval) :=
  match shape a with
  | [h; w; _] => Ok [detection "dog" float_0_1 0 0 (Z.of_N w - 1) (Z.of_N h - 1)]
  | _ => Raise (LibraryError "darkflow" "not an image")
  end.

(** The computing and displaying calls: transforms give back the array
    they were given, everything else gives [None]. *)
Definition other (fn : string) (args : list pyval) (kwargs : list (string * pyval))
    (h : list ndarray) : result extres :=
  match args with
  | VArr r :: _ =>
      match h !! r with
      | Some a => if bool_decide (fn = "plt.imshow") then Ok (ExtVal VNone) else Ok (ExtArr a)
      | None => Raise (Dangling r)
      end
  | _ => Ok (ExtVal VNone)
  end.

Definition lib : Library := {|
  IMREAD_COLOR := 1;
  COLOR_BGR2RGB := 4;
  INTER_CUBIC := 2;
  cv_imread := imread;
  cv_imdecode := imdecode;
  cv_cvtColor := cvtColor;
  cv_rectangle := rectangle;
  tfnet := gmap string pyval;
  tfnet_build := build;
  tfnet_return_predict := detect;
  ext_call := other
|}.

Definition bytes (l : list N) : list Byte.byte := omap Byte.of_N l.

(** A 2 x 3 picture: two size bytes and eighteen pixel bytes. *)
Definition picture : list Byte.byte :=
  bytes [2; 3;  10; 20; 30;  11; 21; 31;  12; 22; 32;
                13; 23; 33;  14; 24; 34;  15; 25; 35]%N.

Definition disk : gmap string (list Byte.byte) :=
  list_to_map [("otto.jpg", picture);
               ("cfg/yolo.cfg", bytes [1%N]);
               ("/data/yolo.weights", bytes [2%N]);
               ("/data/images/cat.jpg", picture)].

Definition folders : gmap string (list string) :=
  list_to_map [("/data/images/", ["cat.jpg"])].

(** A fresh kernel: nothing allocated, nothing called. *)
Definition start : world := World [] disk folders [].

(** The picture as [loadImage] leaves it in the store, and a kernel that
    holds it at reference 0. *)
Definition image : ndarray :=
  NdArray [2; 3; 3]%N uint8
    [30; 20; 10;  31; 21; 11;  32; 22; 12;
     33; 23; 13;  34; 24; 14;  35; 25; 15].

Definition loaded : world := World [image] disk folders [].

(** The same kernel with another listing of the image directory. *)
Definition start_other : world :=
  World [] disk (list_to_map [("/data/images/", ["tree.png"])]) [].

(** Two detections of the same box under different labels and scores. *)
Definition dog : pyval := detection "dog" float_0_1 0 0 1 1.
Definition sofa : pyval := detection "sofa" float_2_5 0 0 1 1.

(** A kernel that holds the raw bytes of the picture as a flat array. *)
Definition flat : world := World [asarray_uint8 picture] disk folders [].

(** A record without a box. *)
Definition unboxed : pyval := VDict (list_to_map [("label", VStr "dog")]).

End Reference.

(** * Proofs *)

(** ** Numbers *)

Lemma int_truediv_100_total (m : Z) : exists t, int_truediv m 100 = Ok t.
Proof.
  unfold int_truediv, py_truediv.
  change (100 =? 0) with false. cbv iota.
  destruct (m =? 0); [ now exists 0 | ].
  unfold round_quotient.
  match goal with |- context [if ?c then S754_finite _ _ _ else _] => destruct c end;
    unfold py_int; eauto.
Qed.



(** The float literals of the notebook are the nearest binary64 values. *)
Lemma float_literals_rounded :
  py_truediv 5 2 = Ok float_2_5 /\
  py_truediv 13 10 = Ok float_1_3 /\
  py_truediv 1 10 = Ok float_0_1.
Proof. repeat split; vm_compute; reflexivity. Qed.

Lemma holds_on_spec (bits : nat) (p : Z -> bool) :
  forall base, holds_on bits base p = true ->
  forall a, base <= a < base + 2 ^ Z.of_nat bits -> p a = true.
Proof.
  induction bits as [|k IH]; simpl holds_on; intros base H a Ha.
  - change (2 ^ Z.of_nat 0) with 1 in Ha. replace a with base by lia. exact H.
  - apply andb_true_iff in H as [H1 H2].
    rewrite Nat2Z.inj_succ, Z.pow_succ_r in Ha by lia.
    destruct (Z_lt_le_dec a (base + 2 ^ Z.of_nat k)).
    + apply (IH base H1). lia.
    + apply (IH _ H2). lia.
Qed.

Lemma quotient_ok_check : holds_on 12 0 quotient_ok = true.
Proof. vm_compute. reflexivity. Qed.

(** On every dimension below [2^12], [py_truediv] by 100 is the IEEE 754
    quotient of the two operands converted to binary64, bit for bit, and
    [int] of it is the integer quotient. *)
Lemma py_truediv_ieee (a : Z) :
  0 <= a < 4096 ->
  agrees_with_ieee a = true /\ int_truediv a 100 = Ok (a / 100).
Proof.
  intros Ha.
  pose proof (holds_on_spec 12 quotient_ok 0 quotient_ok_check a) as H.
  change (2 ^ Z.of_nat 12) with 4096 in H. specialize (H ltac:(lia)).
  unfold quotient_ok in H. apply andb_true_iff in H as [H1 H2].
  split; [ exact H1 | ].
  destruct (int_truediv a 100) as [t|e]; [ | discriminate ].
  apply Z.eqb_eq in H2. now subst.
Qed.

(** ** Runs of the library calls and of the loop of [annotate] *)

Section Runs.

Context (L : Library).

Lemma bind_ext {A B} (m : M A) (k1 k2 : A -> M B) (w : world) :
  (forall a w', k1 a w' = k2 a w') -> bind m k1 w = bind m k2 w.
Proof. intros H. unfold bind. destruct (m w) as [[a|e] w']; auto. Qed.

Lemma bind_ext_l {A B} (m1 m2 : M A) (k : A -> M B) (w : world) :
  m1 w = m2 w -> bind m1 k w = bind m2 k w.
Proof. intros H. unfold bind. now rewrite H. Qed.

Lemma lookup_fresh (h : list ndarray) (a : ndarray) : (h ++ [a]) !! length h = Some a.
Proof. apply list_lookup_middle. reflexivity. Qed.

Lemma np_copy_run (r : loc) (w : world) (a : ndarray) :
  heap w !! r = Some a ->
  np_copy r w = (Ok (length (heap w)),
                 World (heap w ++ [a]) (files w) (dirs w) (trace w ++ [Call_np_copy r])).
Proof.
  intros H. unfold np_copy, bind, log, deref, alloc, with_heap. simpl. rewrite H. reflexivity.
Qed.

Lemma cv2_rectangle_run (r : loc) (p1 p2 : pyval * pyval) (c t : pyval) (w : world) :
  cv2_rectangle L r p1 p2 c t w =
    let tr := trace w ++ [Call_rectangle r p1 p2 c t] in
    match heap w !! r with
    | None => (Raise (Dangling r), World (heap w) (files w) (dirs w) tr)
    | Some a =>
        match cv_rectangle L a p1 p2 c t with
        | Ok a' => (Ok r, World (<[r := a']> (heap w)) (files w) (dirs w) tr)
        | Raise e => (Raise e, World (heap w) (files w) (dirs w) tr)
        end
    end.
Proof.
  unfold cv2_rectangle, bind, log, deref, lift, store, ret, with_heap. simpl.
  destruct (heap w !! r) as [a|]; [ | reflexivity ].
  destruct (cv_rectangle L a p1 p2 c t); reflexivity.
Qed.

Lemma draw_box_run (r : loc) (t p : pyval) (w : world) :
  draw_box L r t p w =
    match box_of p with
    | Ok (p1, p2) => (cv2_rectangle L r p1 p2 white t ;; ret tt) w
    | Raise e => (Raise e, w)
    end.
Proof.
  unfold draw_box, box_of, bind, lift.
  destruct (subscript p "topleft") as [tl|e]; [ | reflexivity ].
  destruct (subscript tl "x") as [tlx|e]; [ | reflexivity ].
  destruct (subscript tl "y") as [tly|e]; [ | reflexivity ].
  destruct (subscript p "bottomright") as [br|e]; [ | reflexivity ].
  destruct (subscript br "x") as [brx|e]; [ | reflexivity ].
  destruct (subscript br "y") as [bry|e]; reflexivity.
Qed.

Lemma drawn_refl (r : loc) (w : world) : drawn r w w [].
Proof. split; auto. now rewrite app_nil_r. Qed.

Lemma drawn_trans (r : loc) (w1 w2 w3 : world) (e1 e2 : list call) :
  drawn r w1 w2 e1 -> drawn r w2 w3 e2 -> drawn r w1 w3 (e1 ++ e2).
Proof.
  intros [F1 D1 L1 O1 T1] [F2 D2 L2 O2 T2]. split; try congruence.
  - intros j Hj. rewrite O2, O1; auto.
  - rewrite T2, T1. now rewrite app_assoc.
Qed.

(** One pass of the loop body: no event and no effect, or one rectangle
    call on [r]. *)
Lemma draw_box_drawn (r : loc) (t p : pyval) (w : world) :
  exists evs,
    drawn r w (final (draw_box L r t p w)) evs /\
    Forall (rect_call r t) evs /\
    (length evs <= 1)%nat /\
    (outcome (draw_box L r t p w) = Ok tt -> length evs = 1%nat).
Proof.
  rewrite draw_box_run.
  destruct (box_of p) as [[p1 p2]|e].
  - exists [Call_rectangle r p1 p2 white t].
    unfold bind. rewrite cv2_rectangle_run. cbv zeta.
    assert (Hc : Forall (rect_call r t) [Call_rectangle r p1 p2 white t]).
    { constructor; [ now exists p1, p2 | constructor ]. }
    destruct (heap w !! r) as [a|] eqn:Hr.
    + destruct (cv_rectangle L a p1 p2 white t) as [a'|e]; simpl.
      * repeat split; auto.
        -- simpl. apply length_insert.
        -- intros j Hj. simpl. apply list_lookup_insert_ne. congruence.
      * repeat split; auto.
    + simpl. repeat split; auto.
  - exists []. simpl. repeat split; auto using drawn_refl; try lia.
    + now rewrite app_nil_r.
    + discriminate.
Qed.

Lemma for_each_cons {A} (x : A) (l : list A) (body : A -> M unit) (w : world) :
  for_each (x :: l) body w =
    match body x w with
    | (Ok _, w1) => for_each l body w1
    | (Raise e, w1) => (Raise e, w1)
    end.
Proof. reflexivity. Qed.

Lemma for_each_drawn (r : loc) (t : pyval) (ps : list pyval) (w : world) :
  exists evs,
    drawn r w (final (for_each ps (draw_box L r t) w)) evs /\
    Forall (rect_call r t) evs /\
    (length evs <= length ps)%nat /\
    (outcome (for_each ps (draw_box L r t) w) = Ok tt -> length evs = length ps).
Proof.
  revert w. induction ps as [|p ps IH]; intros w.
  - exists []. simpl. repeat split; auto. now rewrite app_nil_r.
  - destruct (draw_box_drawn r t p w) as (e1 & D1 & F1 & B1 & K1).
    rewrite for_each_cons.
    destruct (draw_box L r t p w) as [[[]|e] w1] eqn:Hb; simpl in D1, K1.
    + destruct (IH w1) as (e2 & D2 & F2 & B2 & K2).
      exists (e1 ++ e2). repeat split.
      * eapply drawn_files. eapply drawn_trans; eauto.
      * eapply drawn_dirs. eapply drawn_trans; eauto.
      * eapply drawn_length. eapply drawn_trans; eauto.
      * eapply drawn_others. eapply drawn_trans; eauto.
      * eapply drawn_trace. eapply drawn_trans; eauto.
      * apply Forall_app; auto.
      * rewrite length_app. simpl. lia.
      * intros Hok. rewrite length_app, K1, K2; auto.
    + exists e1. simpl. repeat split; try apply D1; auto.
      * lia.
      * discriminate.
Qed.

Lemma default_thickness_run (img : loc) (w : world) (a : ndarray) :
  heap w !! img = Some a ->
  default_thickness img w = (default_of_shape (shape a), w).
Proof.
  intros H. unfold default_thickness, default_of_shape, shape_of, bind, deref, lift, ret.
  rewrite H. cbv beta iota.
  destruct (tuple_index (shape a) 0) as [h|e]; [ | reflexivity ].
  rewrite H. cbv beta iota.
  destruct (tuple_index (shape a) 1) as [wd|e]; [ | reflexivity ].
  destruct (int_truediv (Z.max h wd) 100); reflexivity.
Qed.

Lemma default_of_shape_image (h wd : N) (rest : list N) :
  exists t, int_truediv (Z.max (Z.of_N h) (Z.of_N wd)) 100 = Ok t /\
            default_of_shape (h :: wd :: rest) = Ok (VInt t).
Proof.
  destruct (int_truediv_100_total (Z.max (Z.of_N h) (Z.of_N wd))) as [t Ht].
  exists t. split; [ exact Ht | ].
  unfold default_of_shape, tuple_index. simpl. now rewrite Ht.
Qed.

Lemma annotate_run (img : loc) (ps : list pyval) (thickness : pyval) (w : world) (a : ndarray) :
  heap w !! img = Some a ->
  annotate L img ps thickness w =
    match resolved thickness a with
    | Raise e => (Raise e, copied img a w)
    | Ok t =>
        match for_each ps (draw_box L (length (heap w)) t) (copied img a w) with
        | (Ok _, w') => (Ok (length (heap w)), w')
        | (Raise e, w') => (Raise e, w')
        end
    end.
Proof.
  intros H. unfold annotate. unfold bind at 1. rewrite (np_copy_run _ _ _ H).
  fold (copied img a w). unfold bind at 1, resolved.
  assert (H1 : heap (copied img a w) !! img = Some a).
  { simpl. rewrite lookup_app_l; [ exact H | ]. eapply lookup_lt_Some; eauto. }
  destruct (is_None thickness).
  - rewrite (default_thickness_run _ _ _ H1).
    destruct (default_of_shape (shape a)); [ | reflexivity ].
    unfold bind, ret. destruct (for_each _ _ _) as [[[]|e] w']; reflexivity.
  - unfold ret at 1. unfold bind, ret.
    destruct (for_each _ _ _) as [[[]|e] w']; reflexivity.
Qed.

Lemma annotate_delegation_run (img : loc) (ps : list pyval) (t : pyval) (w : world) (a : ndarray) :
  heap w !! img = Some a ->
  annotate_delegation L img ps t w =
    match for_each ps (draw_box L (length (heap w)) t) (copied img a w) with
    | (Ok _, w') => (Ok (length (heap w)), w')
    | (Raise e, w') => (Raise e, w')
    end.
Proof.
  intros H. unfold annotate_delegation. unfold bind at 1. rewrite (np_copy_run _ _ _ H).
  fold (copied img a w). unfold bind, ret.
  destruct (for_each _ _ _) as [[[]|e] w']; reflexivity.
Qed.

Lemma annotate_dangling (img : loc) (ps : list pyval) (thickness : pyval) (w : world) :
  heap w !! img = None ->
  annotate L img ps thickness w =
    (Raise (Dangling img), World (heap w) (files w) (dirs w) (trace w ++ [Call_np_copy img])).
Proof.
  intros H. unfold annotate, np_copy, bind, log, deref. simpl. rewrite H. reflexivity.
Qed.

Lemma draw_box_layout (r : loc) (t p : pyval) (w : world) (a : ndarray) :
  rectangle_in_place L ->
  heap w !! r = Some a ->
  exists a', heap (final (draw_box L r t p w)) !! r = Some a' /\
             shape a' = shape a /\ dtype_of a' = dtype_of a.
Proof.
  intros HL Hr. rewrite draw_box_run.
  destruct (box_of p) as [[p1 p2]|e]; [ | exists a; auto ].
  unfold bind. rewrite cv2_rectangle_run. cbv zeta. rewrite Hr.
  destruct (cv_rectangle L a p1 p2 white t) as [a'|e] eqn:Hc; simpl.
  - exists a'. split; [ | eapply HL; eauto ].
    apply list_lookup_insert_eq. eapply lookup_lt_Some; eauto.
  - exists a; auto.
Qed.

Lemma for_each_layout (r : loc) (t : pyval) (ps : list pyval) (w : world) (a : ndarray) :
  rectangle_in_place L ->
  heap w !! r = Some a ->
  exists a', heap (final (for_each ps (draw_box L r t) w)) !! r = Some a' /\
             shape a' = shape a /\ dtype_of a' = dtype_of a.
Proof.
  intros HL. revert w a. induction ps as [|p ps IH]; intros w a Hr.
  - exists a; auto.
  - rewrite for_each_cons.
    destruct (draw_box_layout r t p w a HL Hr) as (a1 & H1 & S1 & T1).
    destruct (draw_box L r t p w) as [[[]|e] w1]; simpl in H1.
    + destruct (IH w1 a1 H1) as (a2 & H2 & S2 & T2).
      exists a2. repeat split; congruence.
    + exists a1; auto.
Qed.

Lemma thicknesses_rect_calls (r : loc) (t : pyval) (evs : list call) :
  Forall (rect_call r t) evs -> thicknesses evs = replicate (length evs) t.
Proof.
  induction 1 as [|c evs (p1 & p2 & ->) _ IH]; [ reflexivity | ].
  unfold thicknesses in *. simpl. now rewrite IH.
Qed.

Lemma same_box_box_of (p q : pyval) : same_box p q -> box_of p = box_of q.
Proof.
  intros (d & e & -> & -> & Htl & Hbr). unfold box_of, subscript.
  rewrite Htl, Hbr. reflexivity.
Qed.

Lemma for_each_same_boxes (r : loc) (t : pyval) (ps qs : list pyval) :
  Forall2 same_box ps qs ->
  forall w, for_each ps (draw_box L r t) w = for_each qs (draw_box L r t) w.
Proof.
  induction 1 as [|p q ps qs Hpq _ IH]; intros w; [ reflexivity | ].
  rewrite !for_each_cons, !draw_box_run, (same_box_box_of _ _ Hpq).
  destruct (match box_of q with Ok _ => _ | Raise _ => _ end) as [[[]|e] w1]; auto.
Qed.

End Runs.

(** ** [annotate] *)

Section Annotate.

Context (L : Library).

(** The run of [annotate] on a live image, with what the loop left
    behind. *)
Lemma annotate_summary (img : loc) (ps : list pyval) (thickness : pyval) (w : world) (a : ndarray) :
  heap w !! img = Some a ->
  exists evs,
    drawn (length (heap w)) (copied img a w) (final (annotate L img ps thickness w)) evs /\
    (forall r, outcome (annotate L img ps thickness w) = Ok r -> r = length (heap w)) /\
    (forall t, resolved thickness a = Ok t ->
       Forall (rect_call (length (heap w)) t) evs /\
       (length evs <= length ps)%nat /\
       (forall r, outcome (annotate L img ps thickness w) = Ok r -> length evs = length ps)) /\
    (forall e, resolved thickness a = Raise e -> evs = []).
Proof.
  intros H. rewrite (annotate_run L _ _ _ _ _ H).
  destruct (resolved thickness a) as [t|e].
  - destruct (for_each_drawn L (length (heap w)) t ps (copied img a w)) as (evs & D & F & B & K).
    exists evs.
    destruct (for_each ps _ _) as [[[]|e] w']; simpl in *.
    + split; [ exact D | ]. split; [ intros r [= <-]; reflexivity | ]. split.
      * intros t' [= <-]. split; [ exact F | ]. split; [ exact B | ].
        intros r _. apply K. reflexivity.
      * intros e [=].
    + split; [ exact D | ]. split; [ intros r [=] | ]. split.
      * intros t' [= <-]. split; [ exact F | ]. split; [ exact B | ]. intros r [=].
      * intros e' [=].
  - exists []. simpl. split; [ split; auto; simpl; now rewrite app_nil_r | ].
    split; [ intros r [=] | ]. split; [ intros t [=] | auto ].
Qed.

Lemma new_calls_annotate (img : loc) (ps : list pyval) (thickness : pyval) (w : world)
    (a : ndarray) (evs : list call) :
  drawn (length (heap w)) (copied img a w) (final (annotate L img ps thickness w)) evs ->
  new_calls (annotate L img ps thickness) w = Call_np_copy img :: evs.
Proof.
  intros D. unfold new_calls. rewrite (drawn_trace _ _ _ _ D). simpl.
  rewrite <- app_assoc. apply drop_app_length.
Qed.

(** C1. For every live image array [img] and every list of predictions,
    [annotate] leaves the array at [img] as it was; the array it returns
    is another one, which did not exist before the call; and every
    [cv2.rectangle] call of the run draws into that new array, made by
    [np.copy] as the first call of the run. *)
Theorem annotate_leaves_input_unchanged
    (img : loc) (predictions : list pyval) (thickness : pyval) (w : world) :
  is_Some (heap w !! img) ->
  heap (final (annotate L img predictions thickness w)) !! img = heap w !! img /\
  (forall r, outcome (annotate L img predictions thickness w) = Ok r ->
     r <> img /\ heap w !! r = None /\
     is_Some (heap (final (annotate L img predictions thickness w)) !! r)) /\
  (exists evs,
     new_calls (annotate L img predictions thickness) w = Call_np_copy img :: evs /\
     Forall (fun c => forall r, r ∈ rectangle_target c -> r <> img /\ heap w !! r = None) evs).
Proof.
  intros [a H].
  assert (Hlt : (img < length (heap w))%nat) by (eapply lookup_lt_Some; eauto).
  assert (Hfresh : heap w !! length (heap w) = None) by (apply lookup_ge_None; lia).
  destruct (annotate_summary img predictions thickness w a H) as (evs & D & R & T & E).
  split; [ | split ].
  - rewrite (drawn_others _ _ _ _ D) by lia.
    simpl. apply lookup_app_l. exact Hlt.
  - intros r Hr. rewrite (R r Hr). repeat split; auto; try lia.
    apply lookup_lt_is_Some. rewrite (drawn_length _ _ _ _ D). simpl.
    rewrite length_app. simpl. lia.
  - exists evs. split; [ eapply new_calls_annotate; eauto | ].
    destruct (resolved thickness a) as [t|e] eqn:Hres.
    + destruct (T t eq_refl) as (F & _).
      eapply Forall_impl; [ exact F | ].
      intros c (p1 & p2 & ->) r Hin. simpl in Hin.
      apply list_elem_of_singleton in Hin. subst r. split; [ lia | exact Hfresh ].
    + rewrite (E e eq_refl). constructor.
Qed.

(** C4. [annotate] reads only the box of each detection: on two lists of
    detection records that agree, record by record, on ["topleft"] and
    ["bottomright"] and differ freely elsewhere (label, confidence), it
    has the same outcome and leaves the same world, so the same output
    array. *)
Theorem annotate_reads_only_boxes
    (img : loc) (thickness : pyval) (w : world) (ps qs : list pyval) :
  Forall2 same_box ps qs ->
  annotate L img ps thickness w = annotate L img qs thickness w.
Proof.
  intros Hpq. unfold annotate.
  apply bind_ext; intros r w1.
  apply bind_ext; intros t w2.
  apply bind_ext_l. apply (for_each_same_boxes L r t ps qs Hpq).
Qed.

(** C8. With no detections, [annotate] returns an array whose shape,
    element type and pixels are those of [img] (the image has at least
    the two dimensions the default thickness reads). *)
Theorem annotate_no_detections
    (img : loc) (thickness : pyval) (w : world) (a : ndarray) :
  heap w !! img = Some a ->
  (thickness = VNone -> (2 <= length (shape a))%nat) ->
  exists r,
    outcome (annotate L img [] thickness w) = Ok r /\
    heap (final (annotate L img [] thickness w)) !! r = Some a /\
    heap (final (annotate L img [] thickness w)) !! img = Some a.
Proof.
  intros H Hdim. rewrite (annotate_run L _ _ _ _ _ H).
  assert (Hlt : (img < length (heap w))%nat) by (eapply lookup_lt_Some; eauto).
  assert (Hres : exists t, resolved thickness a = Ok t).
  { unfold resolved. destruct thickness; simpl; eauto.
    specialize (Hdim eq_refl).
    destruct (shape a) as [|h [|wd rest]]; simpl in Hdim; try lia.
    destruct (default_of_shape_image h wd rest) as (t & _ & ->). eauto. }
  destruct Hres as [t ->]. simpl.
  exists (length (heap w)). repeat split.
  - apply lookup_fresh.
  - rewrite lookup_app_l; auto.
Qed.

(** C9. The array [annotate] returns has the shape and the element type
    of the input image, given that [cv2.rectangle] draws in place. *)
Theorem annotate_keeps_shape_and_dtype
    (img : loc) (predictions : list pyval) (thickness : pyval) (w : world) (a : ndarray) :
  rectangle_in_place L ->
  heap w !! img = Some a ->
  forall r, outcome (annotate L img predictions thickness w) = Ok r ->
    exists a', heap (final (annotate L img predictions thickness w)) !! r = Some a' /\
               shape a' = shape a /\ dtype_of a' = dtype_of a /\
               (is_image a -> is_image a').
Proof.
  intros HL H r. rewrite (annotate_run L _ _ _ _ _ H).
  destruct (resolved thickness a) as [t|e]; [ | discriminate ].
  assert (Hc : heap (copied img a w) !! length (heap w) = Some a) by apply lookup_fresh.
  destruct (for_each_layout L (length (heap w)) t predictions _ a HL Hc) as (a' & Ha' & S & T).
  destruct (for_each predictions _ _) as [[[]|e] w']; [ | discriminate ].
  simpl in *. intros [= <-]. exists a'.
  split; [ exact Ha' | ]. split; [ exact S | ]. split; [ exact T | ].
  intros [Hd (h & wd & c & Hs)]. split; [ congruence | ].
  exists h, wd, c. congruence.
Qed.


End Annotate.

(** ** [loadImage] and the byte-buffer route *)

Section Loading.

Context (L : Library).

Lemma loadImage_run (f : string) (w : world) :
  loadImage L f w =
    let t1 := trace w ++ [Call_imread f (IMREAD_COLOR L)] in
    match cv_imread L (files w) f (IMREAD_COLOR L) with
    | Raise e => (Raise e, World (heap w) (files w) (dirs w) t1)
    | Ok None =>
        let t2 := t1 ++ [Call_cvtColor None (COLOR_BGR2RGB L)] in
        match cv_cvtColor L None (COLOR_BGR2RGB L) with
        | Raise e => (Raise e, World (heap w) (files w) (dirs w) t2)
        | Ok d => (Ok (length (heap w)), World (heap w ++ [d]) (files w) (dirs w) t2)
        end
    | Ok (Some a) =>
        let t2 := t1 ++ [Call_cvtColor (Some (length (heap w))) (COLOR_BGR2RGB L)] in
        match cv_cvtColor L (Some a) (COLOR_BGR2RGB L) with
        | Raise e => (Raise e, World (heap w ++ [a]) (files w) (dirs w) t2)
        | Ok d => (Ok (length (heap w ++ [a])),
                   World ((heap w ++ [a]) ++ [d]) (files w) (dirs w) t2)
        end
    end.
Proof.
  unfold loadImage, cv2_imread, cv2_cvtColor, deref_opt, bind, log, get_files, lift,
    alloc, deref, ret, with_heap. simpl.
  destruct (cv_imread L (files w) f (IMREAD_COLOR L)) as [[a|]|e]; simpl; try reflexivity.
  rewrite lookup_fresh.
  destruct (cv_cvtColor L (Some a) (COLOR_BGR2RGB L)); reflexivity.
Qed.

Lemma loadImage_observe (f : string) (w : world) :
  observe (loadImage L f w) = returned (loadImage_composition L (files w) f).
Proof.
  rewrite loadImage_run. unfold loadImage_composition. cbv zeta.
  destruct (cv_imread L (files w) f (IMREAD_COLOR L)) as [[a|]|e]; try reflexivity.
  - destruct (cv_cvtColor L (Some a) (COLOR_BGR2RGB L)) as [d|e]; simpl; [ | reflexivity ].
    now rewrite lookup_fresh.
  - destruct (cv_cvtColor L None (COLOR_BGR2RGB L)) as [d|e]; simpl; [ | reflexivity ].
    now rewrite lookup_fresh.
Qed.


(** The three cells of the notebook that decode from bytes are
    [byte_route] on the picture. *)
Lemma byte_route_cells (w : world) :
  (let* img_bytes := cell_read_bytes in
   let* imgarr := cell_asarray img_bytes in
   cell_decode L imgarr) w
  = byte_route L "otto.jpg" w.
Proof. reflexivity. Qed.

Lemma bind_raise_iff {A B} (m : M A) (k : A -> M B) (w : world) (e : exn) :
  outcome (bind m k w) = Raise e <->
  outcome (m w) = Raise e \/
  exists a w1, m w = (Ok a, w1) /\ outcome (k a w1) = Raise e.
Proof.
  unfold bind. destruct (m w) as [[a|e'] w1]; simpl; split.
  - intros H. right. exists a, w1. auto.
  - intros [H | (a' & w' & [= <- <-] & H)]; [ discriminate | exact H ].
  - intros [= ->]. left. reflexivity.
  - intros [[= ->] | (a' & w' & [=] & _)]. reflexivity.
Qed.

(** C3. [loadImage(f)] is the decoder followed by the conversion: what
    the caller sees is [cvtColor(imread(f, IMREAD_COLOR), COLOR_BGR2RGB)]
    on array contents, the calls are made in that order with those
    constants, and a returned value is a three-dimensional array of
    unsigned 8-bit values, given that OpenCV decodes colour images to
    three 8-bit channels, converts a three-channel image without changing
    its size or depth, and rejects an empty source. *)
Theorem loadImage_decodes_then_converts (f : string) (w : world) :
  imread_color L -> cvtColor_same_size L -> cvtColor_rejects_None L ->
  observe (loadImage L f w) = returned (loadImage_composition L (files w) f) /\
  new_calls (loadImage L f) w =
    Call_imread f (IMREAD_COLOR L) ::
    match cv_imread L (files w) f (IMREAD_COLOR L) with
    | Raise _ => []
    | Ok None => [Call_cvtColor None (COLOR_BGR2RGB L)]
    | Ok (Some _) => [Call_cvtColor (Some (length (heap w))) (COLOR_BGR2RGB L)]
    end /\
  (forall r, outcome (loadImage L f w) = Ok r ->
     exists a, heap (final (loadImage L f w)) !! r = Some a /\ is_image a).
Proof.
  intros Hread Hcvt Hnone. split; [ apply loadImage_observe | ].
  unfold new_calls. rewrite loadImage_run. cbv zeta.
  destruct (cv_imread L (files w) f (IMREAD_COLOR L)) as [[a|]|e] eqn:Hr.
  - destruct (Hread _ _ _ Hr) as (Hd & h & wd & Hs).
    destruct (cv_cvtColor L (Some a) (COLOR_BGR2RGB L)) as [d|e] eqn:Hc; simpl.
    + split; [ rewrite <- app_assoc; apply drop_app_length | ].
      intros r [= <-]. exists d. split; [ apply lookup_fresh | ].
      destruct (Hcvt _ _ _ _ Hs Hc) as [Hs' Hd'].
      split; [ congruence | exists h, wd, 3%N; congruence ].
    + split; [ rewrite <- app_assoc; apply drop_app_length | discriminate ].
  - destruct (Hnone (COLOR_BGR2RGB L)) as [e He]. rewrite He. simpl.
    split; [ rewrite <- app_assoc; apply drop_app_length | discriminate ].
  - simpl. split; [ apply drop_app_length | discriminate ].
Qed.

(** C5. Failures pass through unchanged.  [loadImage(f)] raises [e]
    exactly when one of its two library calls raised [e]; where the
    decoder gives no image (a missing, unreadable or malformed file makes
    [cv2.imread] return an empty matrix) [loadImage] raises what
    [cv2.cvtColor] raises on it and returns no value; loading the model
    raises what the constructor raised; and [predict] raises [e] exactly
    when one of its steps raised [e]. *)
Theorem failures_propagate (w : world) :
  cvtColor_rejects_None L -> imread_missing L ->
  (forall f e,
     outcome (loadImage L f w) = Raise e <->
     cv_imread L (files w) f (IMREAD_COLOR L) = Raise e \/
     exists src, cv_imread L (files w) f (IMREAD_COLOR L) = Ok src /\
                 cv_cvtColor L src (COLOR_BGR2RGB L) = Raise e) /\
  (forall f, cv_imread L (files w) f (IMREAD_COLOR L) = Ok None ->
     exists e, cv_cvtColor L None (COLOR_BGR2RGB L) = Raise e /\
               outcome (loadImage L f w) = Raise e) /\
  (forall f, files w !! f = None ->
     exists e, cv_cvtColor L None (COLOR_BGR2RGB L) = Raise e /\
               outcome (loadImage L f w) = Raise e) /\
  (forall e, tfnet_build L (files w) options = Raise e ->
     outcome (cell_model L w) = Raise e) /\
  (forall yolo imageFile e,
     outcome (predict L yolo imageFile w) = Raise e <->
     outcome (loadImage L ("/data/images/" +:+ imageFile) w) = Raise e \/
     exists image w1,
       loadImage L ("/data/images/" +:+ imageFile) w = (Ok image, w1) /\
       (outcome (return_predict L yolo image w1) = Raise e \/
        exists predictions w2,
          return_predict L yolo image w1 = (Ok predictions, w2) /\
          (outcome (annotate L image predictions (VInt 5) w2) = Raise e \/
           exists annotated w3,
             annotate L image predictions (VInt 5) w2 = (Ok annotated, w3) /\
             outcome (ext L "plt.imshow" [VArr annotated] [] w3) = Raise e))).
Proof.
  intros Hnone Hmiss.
  assert (Hload : forall f e,
     outcome (loadImage L f w) = Raise e <->
     cv_imread L (files w) f (IMREAD_COLOR L) = Raise e \/
     exists src, cv_imread L (files w) f (IMREAD_COLOR L) = Ok src /\
                 cv_cvtColor L src (COLOR_BGR2RGB L) = Raise e).
  { intros f e. rewrite loadImage_run. cbv zeta.
    destruct (cv_imread L (files w) f (IMREAD_COLOR L)) as [[a|]|e0].
    - destruct (cv_cvtColor L (Some a) (COLOR_BGR2RGB L)) as [d|e1] eqn:Hc; simpl; split.
      + discriminate.
      + intros [[=] | (src & [= <-] & H)]. congruence.
      + intros [= <-]. right. eauto.
      + intros [[=] | (src & [= <-] & H)]. congruence.
    - destruct (cv_cvtColor L None (COLOR_BGR2RGB L)) as [d|e1] eqn:Hc; simpl; split.
      + discriminate.
      + intros [[=] | (src & [= <-] & H)]. congruence.
      + intros [= <-]. right. eauto.
      + intros [[=] | (src & [= <-] & H)]. congruence.
    - simpl. split.
      + intros [= <-]. now left.
      + intros [[= <-] | (src & [=] & _)]. reflexivity. }
  assert (Hempty : forall f, cv_imread L (files w) f (IMREAD_COLOR L) = Ok None ->
     exists e, cv_cvtColor L None (COLOR_BGR2RGB L) = Raise e /\
               outcome (loadImage L f w) = Raise e).
  { intros f Hf. destruct (Hnone (COLOR_BGR2RGB L)) as [e He].
    exists e. split; [ exact He | ]. apply Hload. right. eauto. }
  split; [ exact Hload | ].
  split; [ exact Hempty | ].
  split; [ intros f Hf; apply Hempty, Hmiss, Hf | ].
  split.
  - intros e He. unfold cell_model, TFNet, bind, log, get_files, lift. simpl.
    now rewrite He.
  - intros yolo imageFile e. unfold predict.
    rewrite bind_raise_iff.
    apply or_iff_compat_l.
    split; intros (image & w1 & H1 & H); exists image, w1; (split; [ exact H1 | ]).
    + apply bind_raise_iff in H. destruct H as [H | (ps & w2 & H2 & H)]; [ now left | ].
      right. exists ps, w2. split; [ exact H2 | ].
      apply bind_raise_iff in H. destruct H as [H | (r & w3 & H3 & H)]; [ now left | ].
      right. exists r, w3. split; [ exact H3 | ].
      apply bind_raise_iff in H. destruct H as [H | (v & w4 & _ & H)]; [ exact H | ].
      discriminate.
    + apply bind_raise_iff. destruct H as [H | (ps & w2 & H2 & H)]; [ now left | ].
      right. exists ps, w2. split; [ exact H2 | ].
      apply bind_raise_iff. destruct H as [H | (r & w3 & H3 & H)]; [ now left | ].
      right. exists r, w3. split; [ exact H3 | ].
      apply bind_raise_iff. now left.
Qed.


(** C2, as amended. [loadImage] is the composition of the two library
    functions.  [annotate] with a thickness given is the plain delegation
    (copy, then one [cv2.rectangle] per detection with the arguments as
    received); with the thickness left out it has a conditional of its
    own: it is the plain delegation at the thickness it computes from the
    shape of the image. *)
Theorem helpers_delegate :
  (forall f w, observe (loadImage L f w) = returned (loadImage_composition L (files w) f)) /\
  (forall img ps t w,
     is_None t = false ->
     annotate L img ps t w = annotate_delegation L img ps t w) /\
  (forall img ps w a t,
     heap w !! img = Some a ->
     default_of_shape (shape a) = Ok t ->
     annotate L img ps VNone w = annotate_delegation L img ps t w).
Proof.
  split; [ apply loadImage_observe | ]. split.
  - intros img ps t w Ht. unfold annotate, annotate_delegation.
    apply bind_ext. intros r w1. rewrite Ht. reflexivity.
  - intros img ps w a t H Hd.
    rewrite (annotate_run L _ _ _ _ _ H), (annotate_delegation_run L _ _ _ _ _ H).
    unfold resolved. simpl. rewrite Hd. reflexivity.
Qed.

End Loading.

(** ** The paths the notebook reads *)

Lemma paths_read_app (t1 t2 : list call) :
  paths_read (t1 ++ t2) = paths_read t1 ++ paths_read t2.
Proof. unfold paths_read. now rewrite map_app, concat_app. Qed.

Create HintDb emits.

Section Paths.

Context (L : Library) (ds : gmap string (list string)) (P : string -> Prop).

(** A computation that adds nothing to the trace. *)
Lemma emits_silent {A} (m : M A) :
  (forall w, dirs (final (m w)) = dirs w /\ trace (final (m w)) = trace w) ->
  emits ds P m (fun _ => True).
Proof.
  intros H w Hw. destruct (H w) as [Hd Ht]. split; [ congruence | ]. split; [ | auto ].
  exists []. rewrite app_nil_r. split; [ exact Ht | constructor ].
Qed.

Lemma emits_weaken {A} (m : M A) (Q Q' : A -> Prop) :
  emits ds P m Q -> (forall a, Q a -> Q' a) -> emits ds P m Q'.
Proof.
  intros H HQ w Hw. destruct (H w Hw) as (Hd & Ht & Ha). auto.
Qed.

Lemma emits_ret {A} (a : A) : emits ds P (ret a) (fun _ => True).
Proof. apply emits_silent. intros w. split; reflexivity. Qed.

Lemma emits_lift {A} (r : result A) : emits ds P (lift r) (fun _ => True).
Proof. apply emits_silent. intros w. split; reflexivity. Qed.

Lemma emits_bind {A B} (m : M A) (k : A -> M B) (Q : A -> Prop) (R : B -> Prop) :
  emits ds P m Q ->
  (forall a, Q a -> emits ds P (k a) R) ->
  emits ds P (bind m k) R.
Proof.
  intros Hm Hk w Hw. destruct (Hm w Hw) as (Hd & (e1 & Ht & Hp) & Ha).
  unfold bind. destruct (m w) as [[a|e] w1]; simpl in *.
  - destruct (Hk a (Ha a eq_refl) w1 Hd) as (Hd2 & (e2 & Ht2 & Hp2) & Hb).
    split; [ exact Hd2 | ]. split; [ | exact Hb ].
    exists (e1 ++ e2). split.
    + rewrite Ht2, Ht. now rewrite app_assoc.
    + rewrite paths_read_app. apply Forall_app. auto.
  - split; [ exact Hd | ]. split; [ eauto | discriminate ].
Qed.

Lemma emits_log (c : call) : Forall P (fs_reads c) -> emits ds P (log c) (fun _ => True).
Proof.
  intros Hc w Hw. split; [ exact Hw | ]. split; [ | auto ].
  exists [c]. split; [ reflexivity | ].
  unfold paths_read. simpl. now rewrite app_nil_r.
Qed.

Lemma emits_alloc (a : ndarray) : emits ds P (alloc a) (fun _ => True).
Proof. apply emits_silent. intros w. split; reflexivity. Qed.

Lemma emits_deref (r : loc) : emits ds P (deref r) (fun _ => True).
Proof.
  apply emits_silent. intros w. unfold deref. destruct (heap w !! r); split; reflexivity.
Qed.

Lemma emits_store (r : loc) (a : ndarray) : emits ds P (store r a) (fun _ => True).
Proof. apply emits_silent. intros w. split; reflexivity. Qed.

Lemma emits_get_files : emits ds P get_files (fun _ => True).
Proof. apply emits_silent. intros w. split; reflexivity. Qed.

Lemma emits_get_heap : emits ds P get_heap (fun _ => True).
Proof. apply emits_silent. intros w. split; reflexivity. Qed.

Lemma emits_for_each {A} (l : list A) (body : A -> M unit) :
  (forall x, emits ds P (body x) (fun _ => True)) ->
  emits ds P (for_each l body) (fun _ => True).
Proof.
  intros Hb. induction l as [|x l IH]; simpl.
  - apply emits_ret.
  - eapply emits_bind; [ apply Hb | intros _ _; exact IH ].
Qed.

Lemma emits_callback {A} (m : M A) :
  emits ds P m (fun _ => True) -> emits ds P (callback m) (fun _ => True).
Proof.
  intros Hm w Hw. destruct (Hm w Hw) as (Hd & Ht & _).
  unfold callback. simpl. auto.
Qed.

End Paths.

#[local] Hint Resolve emits_ret emits_lift emits_alloc emits_deref emits_store
  emits_get_files emits_get_heap : emits.

(** One step through a computation: split a [bind], case on a value. *)
Ltac emits_step :=
  match goal with
  | |- emits _ _ (bind _ _) _ => eapply emits_bind; [ | intros ? _ ]
  | |- emits _ _ (log _) _ => apply emits_log; simpl; repeat constructor
  | |- emits _ _ (match ?x with _ => _ end) _ => destruct x
  | |- emits _ _ (let '(_, _) := ?x in _) _ => destruct x
  | |- emits _ _ _ _ => solve [ eauto with emits ]
  end.

Section CallPaths.

Context (L : Library) (ds : gmap string (list string)) (P : string -> Prop).

Lemma emits_cv2_imread (f : string) (flags : Z) :
  P f -> emits ds P (cv2_imread L f flags) (fun _ => True).
Proof. intros Hf. unfold cv2_imread. repeat emits_step; auto. Qed.

Lemma emits_cv2_cvtColor (src : option loc) (code : Z) :
  emits ds P (cv2_cvtColor L src code) (fun _ => True).
Proof. unfold cv2_cvtColor, deref_opt. repeat emits_step. Qed.

Lemma emits_cv2_imdecode (buf : loc) (flags : Z) :
  emits ds P (cv2_imdecode L buf flags) (fun _ => True).
Proof. unfold cv2_imdecode. repeat emits_step. Qed.

Lemma emits_cv2_rectangle (img : loc) (p1 p2 : pyval * pyval) (c t : pyval) :
  emits ds P (cv2_rectangle L img p1 p2 c t) (fun _ => True).
Proof. unfold cv2_rectangle. repeat emits_step. Qed.

Lemma emits_np_copy (r : loc) : emits ds P (np_copy r) (fun _ => True).
Proof. unfold np_copy. repeat emits_step. Qed.

Lemma emits_np_asarray_uint8 (b : list Byte.byte) :
  emits ds P (np_asarray_uint8 b) (fun _ => True).
Proof. unfold np_asarray_uint8. repeat emits_step. Qed.

Lemma emits_open_read (f : string) :
  P f -> emits ds P (open_read f) (fun _ => True).
Proof. intros Hf. unfold open_read. repeat emits_step; auto. Qed.

Lemma emits_ext (fn : string) (args : list pyval) (kwargs : list (string * pyval)) :
  emits ds P (ext L fn args kwargs) (fun _ => True).
Proof. unfold ext. repeat emits_step. Qed.

Lemma emits_shape_of (r : loc) : emits ds P (shape_of r) (fun _ => True).
Proof. unfold shape_of. repeat emits_step. Qed.

Lemma emits_return_predict (yolo : tfnet L) (img : loc) :
  emits ds P (return_predict L yolo img) (fun _ => True).
Proof. unfold return_predict. repeat emits_step. Qed.

Lemma emits_TFNet (o : gmap string pyval) :
  Forall P (fs_reads (Call_TFNet o)) -> emits ds P (TFNet L o) (fun _ => True).
Proof.
  intros Ho. unfold TFNet.
  eapply emits_bind; [ apply emits_log; exact Ho | intros _ _ ].
  repeat emits_step.
Qed.

(** [listdir] returns what the directory lists. *)
Lemma emits_listdir (d : string) :
  P d -> emits ds P (listdir d) (fun names => ds !! d = Some names).
Proof.
  intros Hd w Hw. unfold listdir, bind, log. simpl.
  destruct (dirs w !! d) as [names|] eqn:Hn; simpl.
  - split; [ exact Hw | ]. split.
    + exists [Call_listdir d]. split; [ reflexivity | ].
      unfold paths_read. simpl. auto.
    + intros a [= <-]. congruence.
  - split; [ exact Hw | ]. split; [ | discriminate ].
    exists [Call_listdir d]. split; [ reflexivity | ].
    unfold paths_read. simpl. auto.
Qed.

End CallPaths.

#[local] Hint Resolve emits_cv2_imread emits_cv2_cvtColor emits_cv2_imdecode emits_cv2_rectangle
  emits_np_copy emits_np_asarray_uint8 emits_open_read emits_ext emits_shape_of
  emits_return_predict : emits.

Section RoutinePaths.

Context (L : Library) (ds : gmap string (list string)) (P : string -> Prop).

Lemma emits_loadImage (f : string) :
  P f -> emits ds P (loadImage L f) (fun _ => True).
Proof. intros Hf. unfold loadImage. repeat emits_step. Qed.

Lemma emits_annotate (img : loc) (ps : list pyval) (t : pyval) :
  emits ds P (annotate L img ps t) (fun _ => True).
Proof.
  unfold annotate.
  eapply emits_bind; [ apply emits_np_copy | intros r _ ].
  eapply emits_bind with (Q := fun _ => True).
  - destruct (is_None t); [ | apply emits_ret ].
    unfold default_thickness. repeat emits_step.
  - intros t' _.
    eapply emits_bind; [ | intros _ _; apply emits_ret ].
    apply emits_for_each. intros p. unfold draw_box. repeat emits_step.
Qed.

Lemma emits_predict (yolo : tfnet L) (imageFile : string) :
  P ("/data/images/" +:+ imageFile) ->
  emits ds P (predict L yolo imageFile) (fun _ => True).
Proof.
  intros Hf. unfold predict.
  eapply emits_bind; [ apply emits_loadImage, Hf | intros image _ ].
  eapply emits_bind; [ apply emits_return_predict | intros ps _ ].
  eapply emits_bind; [ apply emits_annotate | intros r _ ].
  repeat emits_step.
Qed.

Lemma emits_select {A} (f : string -> M A) (choices : list string) (picks : list nat) :
  (forall c, c ∈ choices -> emits ds P (f c) (fun _ => True)) ->
  emits ds P (select f choices picks) (fun _ => True).
Proof.
  intros Hf. induction picks as [|i picks IH]; simpl.
  - apply emits_ret.
  - eapply emits_bind; [ | intros _ _; exact IH ].
    destruct (choices !! i) as [c|] eqn:Hc; [ | apply emits_ret ].
    apply emits_callback, Hf. eapply list_elem_of_lookup_2; eauto.
Qed.

End RoutinePaths.

Section NotebookPaths.

Context (L : Library) (ds : gmap string (list string)).

Lemma literal_is_notebook_path (p : string) : p ∈ literal_paths -> notebook_path ds p.
Proof. intros H. now left. Qed.

Lemma emits_notebook (picks : list nat) :
  emits ds (notebook_path ds) (notebook L picks) (fun _ => True).
Proof.
  assert (Hotto : notebook_path ds "otto.jpg").
  { apply literal_is_notebook_path. unfold literal_paths. set_solver. }
  assert (Hdir : notebook_path ds "/data/images/").
  { apply literal_is_notebook_path. unfold literal_paths. set_solver. }
  assert (Hopt : Forall (notebook_path ds) (fs_reads (Call_TFNet options))).
  { change (fs_reads (Call_TFNet options)) with ["cfg/yolo.cfg"; "/data/yolo.weights"].
    repeat constructor; apply literal_is_notebook_path; unfold literal_paths; set_solver. }
  unfold notebook.
  eapply emits_bind; [ apply emits_loadImage, Hotto | intros img _ ].
  eapply emits_bind.
  { unfold cell_show. repeat emits_step. }
  intros _ _. eapply emits_bind.
  { unfold cell_blur_resize. repeat emits_step. }
  intros _ _. eapply emits_bind.
  { unfold cell_rotate. repeat emits_step. }
  intros _ _. eapply emits_bind; [ apply emits_open_read, Hotto | intros img_bytes _ ].
  eapply emits_bind; [ apply emits_np_asarray_uint8 | intros imgarr _ ].
  eapply emits_bind.
  { unfold cell_decode. repeat emits_step. }
  intros img2 _. eapply emits_bind; [ apply emits_ext | intros _ _ ].
  eapply emits_bind.
  { unfold cell_histogram.
    eapply emits_bind; [ | intros _ _; repeat emits_step ].
    apply emits_for_each. intros [i color]. repeat emits_step. }
  intros _ _. eapply emits_bind; [ apply emits_TFNet, Hopt | intros yolo _ ].
  eapply emits_bind.
  { unfold cell_detect.
    eapply emits_bind; [ apply emits_return_predict | intros ps _ ].
    eapply emits_bind; [ apply emits_annotate | intros r _ ].
    repeat emits_step. }
  intros predictions _. unfold cell_interact.
  eapply emits_bind; [ apply emits_listdir, Hdir | intros names Hnames ].
  unfold interact.
  eapply emits_bind; [ apply emits_log; constructor | intros _ _ ].
  apply emits_select. intros c Hc. apply emits_predict.
  right. exists names, c. auto.
Qed.

End NotebookPaths.

(** C6, as amended. Every path the notebook hands to the file system is a
    path literal of its source (the picture, the model configuration, the
    model weights, the image directory) or the image directory followed by
    a name that directory lists: the file [predict] reads is chosen at run
    time from the listing. *)
Theorem notebook_reads (L : Library) (picks : list nat) (w : world) :
  Forall (notebook_path (dirs w)) (paths_read (new_calls (notebook L picks) w)).
Proof.
  destruct (emits_notebook L (dirs w) picks w eq_refl) as (_ & (evs & Ht & Hp) & _).
  unfold new_calls. rewrite Ht, drop_app_length. exact Hp.
Qed.

(** ** The statements on the small instance of the libraries *)

Lemma reference_rectangle_in_place : rectangle_in_place Reference.lib.
Proof.
  intros a [x1 y1] [x2 y2] color thickness a'. simpl. unfold Reference.rectangle.
  repeat match goal with
         | |- context [match ?x with _ => _ end] => destruct x; try discriminate
         end.
  intros [= <-]. auto.
Qed.

Lemma annotate_leaves_input_unchanged_witness :
  is_Some (heap Reference.loaded !! 0%nat) /\
  heap (final (annotate Reference.lib 0%nat [Reference.dog] VNone Reference.loaded)) !! 0%nat
  = heap Reference.loaded !! 0%nat.
Proof.
  assert (H : is_Some (heap Reference.loaded !! 0%nat)) by (eexists; reflexivity).
  split; [ exact H | ].
  exact (proj1 (annotate_leaves_input_unchanged Reference.lib 0%nat [Reference.dog] VNone
                  Reference.loaded H)).
Defined.

Lemma annotate_reads_only_boxes_witness :
  Forall2 same_box [Reference.dog] [Reference.sofa] /\
  annotate Reference.lib 0%nat [Reference.dog] VNone Reference.loaded
  = annotate Reference.lib 0%nat [Reference.sofa] VNone Reference.loaded.
Proof.
  assert (H : Forall2 same_box [Reference.dog] [Reference.sofa]).
  { repeat constructor. eexists _, _. repeat split; reflexivity. }
  split; [ exact H | ].
  exact (annotate_reads_only_boxes Reference.lib 0%nat VNone Reference.loaded _ _ H).
Defined.

Lemma annotate_no_detections_witness :
  heap Reference.loaded !! 0%nat = Some Reference.image /\
  exists r,
    outcome (annotate Reference.lib 0%nat [] VNone Reference.loaded) = Ok r /\
    heap (final (annotate Reference.lib 0%nat [] VNone Reference.loaded)) !! r = Some Reference.image /\
    heap (final (annotate Reference.lib 0%nat [] VNone Reference.loaded)) !! 0%nat = Some Reference.image.
Proof.
  split; [ reflexivity | ].
  apply (annotate_no_detections Reference.lib 0%nat VNone Reference.loaded Reference.image).
  - reflexivity.
  - intros _. simpl. lia.
Defined.

Lemma annotate_keeps_shape_and_dtype_witness :
  rectangle_in_place Reference.lib /\
  exists a', heap (final (annotate Reference.lib 0%nat [Reference.dog] VNone Reference.loaded)) !! 1%nat
             = Some a' /\
             shape a' = shape Reference.image /\ dtype_of a' = dtype_of Reference.image /\
             (is_image Reference.image -> is_image a').
Proof.
  split; [ exact reference_rectangle_in_place | ].
  apply (annotate_keeps_shape_and_dtype Reference.lib 0%nat [Reference.dog] VNone Reference.loaded
           Reference.image reference_rectangle_in_place).
  - reflexivity.
  - reflexivity.
Defined.


Lemma reference_imread_color : imread_color Reference.lib.
Proof.
  intros fs f a. simpl. unfold Reference.imread, Reference.decode.
  destruct (fs !! f) as [b|]; [ | discriminate ].
  destruct (data (asarray_uint8 b)) as [|h [|wd px]]; try discriminate.
  destruct (_ && _); [ | discriminate ].
  intros [= <-]. simpl. eauto.
Qed.

Lemma reference_cvtColor_same_size : cvtColor_same_size Reference.lib.
Proof.
  intros a a' h w Hs. simpl. unfold Reference.cvtColor. rewrite Hs.
  intros [= <-]. simpl. auto.
Qed.

Lemma reference_cvtColor_rejects_None : cvtColor_rejects_None Reference.lib.
Proof. intros code. simpl. eauto. Qed.

Lemma reference_imread_missing : imread_missing Reference.lib.
Proof. intros fs f flags H. simpl. unfold Reference.imread. now rewrite H. Qed.


Lemma loadImage_decodes_then_converts_witness :
  imread_color Reference.lib /\ cvtColor_same_size Reference.lib /\
  cvtColor_rejects_None Reference.lib /\
  observe (loadImage Reference.lib "otto.jpg" Reference.start) = Ok (Some Reference.image) /\
  new_calls (loadImage Reference.lib "otto.jpg") Reference.start
  = [Call_imread "otto.jpg" 1; Call_cvtColor (Some 0%nat) 4] /\
  (forall r, outcome (loadImage Reference.lib "otto.jpg" Reference.start) = Ok r ->
     exists a, heap (final (loadImage Reference.lib "otto.jpg" Reference.start)) !! r = Some a /\
               is_image a).
Proof.
  split; [ exact reference_imread_color | ].
  split; [ exact reference_cvtColor_same_size | ].
  split; [ exact reference_cvtColor_rejects_None | ].
  exact (loadImage_decodes_then_converts Reference.lib "otto.jpg" Reference.start
           reference_imread_color reference_cvtColor_same_size
           reference_cvtColor_rejects_None).
Defined.

Lemma failures_propagate_witness :
  cvtColor_rejects_None Reference.lib /\ imread_missing Reference.lib /\
  Reference.disk !! "nowhere.jpg" = None /\
  exists e, cv_cvtColor Reference.lib None (COLOR_BGR2RGB Reference.lib) = Raise e /\
            outcome (loadImage Reference.lib "nowhere.jpg" Reference.start) = Raise e.
Proof.
  split; [ exact reference_cvtColor_rejects_None | ].
  split; [ exact reference_imread_missing | ].
  split; [ reflexivity | ].
  apply (proj1 (proj2 (proj2 (failures_propagate Reference.lib Reference.start
           reference_cvtColor_rejects_None reference_imread_missing)))).
  reflexivity.
Defined.


Lemma helpers_delegate_witness :
  is_None (VInt 5) = false /\
  annotate Reference.lib 0%nat [Reference.dog] (VInt 5) Reference.loaded
  = annotate_delegation Reference.lib 0%nat [Reference.dog] (VInt 5) Reference.loaded /\
  heap Reference.loaded !! 0%nat = Some Reference.image /\
  default_of_shape (shape Reference.image) = Ok (VInt 0) /\
  annotate Reference.lib 0%nat [Reference.dog] VNone Reference.loaded
  = annotate_delegation Reference.lib 0%nat [Reference.dog] (VInt 0) Reference.loaded.
Proof.
  destruct (helpers_delegate Reference.lib) as (_ & H1 & H2).
  split; [ reflexivity | ].
  split; [ apply H1; reflexivity | ].
  split; [ reflexivity | ].
  split; [ reflexivity | ].
  apply (H2 0%nat [Reference.dog] Reference.loaded Reference.image (VInt 0)); reflexivity.
Defined.

(** ** Where the specification and the notebook part *)

(** C2, the claim as stated, fails: with the thickness left out,
    [annotate] passes [cv2.rectangle] the thickness it computed (0 for the
    2 x 3 picture), where plain delegation would pass on the [None] it
    received. *)
Lemma annotate_is_not_plain_delegation :
  thicknesses (new_calls (annotate Reference.lib 0%nat [Reference.dog] VNone) Reference.loaded)
  = [VInt 0] /\
  thicknesses (new_calls (annotate_delegation Reference.lib 0%nat [Reference.dog] VNone)
                 Reference.loaded)
  = [VNone] /\
  annotate Reference.lib 0%nat [Reference.dog] VNone Reference.loaded
  <> annotate_delegation Reference.lib 0%nat [Reference.dog] VNone Reference.loaded.
Proof.
  assert (H1 : thicknesses (new_calls (annotate Reference.lib 0%nat [Reference.dog] VNone)
                              Reference.loaded) = [VInt 0]) by (vm_compute; reflexivity).
  assert (H2 : thicknesses (new_calls (annotate_delegation Reference.lib 0%nat [Reference.dog]
                              VNone) Reference.loaded) = [VNone]) by (vm_compute; reflexivity).
  split; [ exact H1 | ]. split; [ exact H2 | ].
  intros H.
  apply (f_equal (fun p => thicknesses (drop (length (trace Reference.loaded))
                                          (trace (final p))))) in H.
  change (thicknesses (new_calls (annotate Reference.lib 0%nat [Reference.dog] VNone)
                         Reference.loaded)
          = thicknesses (new_calls (annotate_delegation Reference.lib 0%nat [Reference.dog]
                                      VNone) Reference.loaded)) in H.
  rewrite H1, H2 in H. discriminate.
Qed.

(** C6, the claim as stated, fails: run from top to bottom on a disk whose
    image directory lists [cat.jpg], the notebook reads
    [/data/images/cat.jpg], which is no path literal of its source; on a
    disk whose image directory lists [tree.png] the same notebook reads
    [/data/images/tree.png] instead. *)
Lemma notebook_reads_a_listed_file :
  paths_read (new_calls (notebook Reference.lib []) Reference.start)
  = ["otto.jpg"; "otto.jpg"; "cfg/yolo.cfg"; "/data/yolo.weights";
     "/data/images/"; "/data/images/cat.jpg"] /\
  paths_read (new_calls (notebook Reference.lib []) Reference.start_other)
  = ["otto.jpg"; "otto.jpg"; "cfg/yolo.cfg"; "/data/yolo.weights";
     "/data/images/"; "/data/images/tree.png"] /\
  ~ Forall (fun p => p ∈ literal_paths)
      (paths_read (new_calls (notebook Reference.lib []) Reference.start)).
Proof.
  assert (H1 : paths_read (new_calls (notebook Reference.lib []) Reference.start)
               = ["otto.jpg"; "otto.jpg"; "cfg/yolo.cfg"; "/data/yolo.weights";
                  "/data/images/"; "/data/images/cat.jpg"]) by (vm_compute; reflexivity).
  split; [ exact H1 | ]. split; [ vm_compute; reflexivity | ].
  rewrite H1. intros H.
  do 5 (apply Forall_cons_1 in H as [_ H]).
  apply Forall_cons_1 in H as [H _].
  unfold literal_paths in H.
  repeat (apply elem_of_cons in H as [H | H]; [ discriminate | ]).
  inversion H.
Qed.

(** * Further properties of the notebook *)

(** ** The default thickness as an integer quotient *)

Lemma scaled_floor (a P m0 : Z) :
  0 <= a -> 128 <= P -> m0 = (a * P) / 100 ->
  m0 / P = a / 100 /\ (m0 + 1) / P = a / 100.
Proof.
  intros Ha HP ->.
  pose proof (Z.div_mod a 100 ltac:(lia)) as Hdm.
  pose proof (Z.mod_pos_bound a 100 ltac:(lia)) as Hj.
  set (k := a / 100) in *. set (j := a mod 100) in *.
  pose proof (Z.mul_div_le (a * P) 100 ltac:(lia)) as Hle.
  pose proof (Z.mul_succ_div_gt (a * P) 100 ltac:(lia)) as Hgt.
  set (m0 := a * P / 100) in *.
  assert (Hlo : k * P <= m0) by nia.
  assert (Hhi : m0 + 1 < (k + 1) * P) by nia.
  split; symmetry.
  - apply (Z.div_unique m0 P k (m0 - k * P)); [ left; lia | lia ].
  - apply (Z.div_unique (m0 + 1) P k (m0 + 1 - k * P)); [ left; lia | lia ].
Qed.

Lemma int_truediv_100_floor (a : Z) :
  0 <= a < 2 ^ 52 -> int_truediv a 100 = Ok (a / 100).
Proof.
  intros [H0 Hlt].
  unfold int_truediv, py_truediv.
  change (100 =? 0) with false. cbv iota.
  destruct (Z.eqb_spec a 0) as [-> | Hne]; [ reflexivity | ].
  assert (Hpos : 0 < a) by lia.
  replace (a <? 0) with false by (symmetry; apply Z.ltb_ge; lia).
  change (100 <? 0) with false. change (xorb false false) with false.
  rewrite (Z.abs_eq a) by lia. change (Z.abs 100) with 100.
  unfold round_quotient. change (Z.log2 100) with 6.
  set (la := Z.log2 a).
  assert (Hla : 0 <= la <= 51).
  { split; [ apply Z.log2_nonneg | ].
    assert (Z.log2 a < 52) by (apply Z.log2_lt_pow2; lia). unfold la. lia. }
  destruct (Z.log2_spec a Hpos) as [Hlo Hhi]. fold la in Hlo, Hhi.
  replace (0 <=? la - 6 - 55) with false by (symmetry; apply Z.leb_gt; lia).
  replace (- (la - 6 - 55)) with (61 - la) by lia.
  set (num := a * 2 ^ (61 - la)).
  assert (Hnum : 2 ^ 61 <= num < 2 ^ 62).
  { unfold num.
    replace (2 ^ 61) with (2 ^ la * 2 ^ (61 - la))
      by (rewrite <- Z.pow_add_r by lia; f_equal; lia).
    replace (2 ^ 62) with (2 ^ Z.succ la * 2 ^ (61 - la))
      by (rewrite <- Z.pow_add_r by lia; f_equal; lia).
    assert (0 < 2 ^ (61 - la)) by (apply Z.pow_pos_nonneg; lia).
    split; nia. }
  set (q := num / 100).
  assert (Hq : 2 ^ 54 <= q < 2 ^ 56).
  { unfold q. split.
    - apply Z.div_le_lower_bound; lia.
    - apply Z.div_lt_upper_bound; lia. }
  set (sticky := if num mod 100 =? 0 then 0 else 1).
  assert (Hs : 0 <= sticky <= 1) by (unfold sticky; destruct (_ =? _); lia).
  set (n := 2 * q + sticky).
  assert (Hn : 2 ^ 55 <= n < 2 ^ 57) by (unfold n; lia).
  set (d := Z.log2 n - 52).
  assert (Hd : 3 <= d <= 4).
  { unfold d.
    assert (55 <= Z.log2 n) by (apply Z.log2_le_pow2; lia).
    assert (Z.log2 n < 57) by (apply Z.log2_lt_pow2; lia). lia. }
  set (K := 62 - la - d).
  assert (HK : 7 <= K <= 59) by (unfold K; lia).
  set (m0 := n / 2 ^ d).
  assert (Hm0 : m0 = (a * 2 ^ K) / 100).
  { unfold m0.
    replace (2 ^ d) with (2 * 2 ^ (d - 1))
      by (rewrite <- Z.pow_succ_r by lia; f_equal; lia).
    assert (0 < 2 ^ (d - 1)) by (apply Z.pow_pos_nonneg; lia).
    rewrite <- Z.div_div by lia.
    replace (n / 2) with q by (unfold n; apply (Z.div_unique _ 2 q sticky); lia).
    unfold q. rewrite Z.div_div by lia.
    replace num with (a * 2 ^ K * 2 ^ (d - 1)).
    - apply Z.div_mul_cancel_r; lia.
    - unfold num. rewrite <- Z.mul_assoc, <- Z.pow_add_r by lia. do 2 f_equal. unfold K. lia. }
  assert (Hm0b : 2 ^ 52 <= m0 < 2 ^ 53).
  { destruct (Z.log2_spec n ltac:(lia)) as [Hnl Hnh].
    replace (Z.log2 n) with (d + 52) in Hnl by (unfold d; lia).
    replace (Z.succ (Z.log2 n)) with (d + 53) in Hnh by (unfold d; lia).
    rewrite Z.pow_add_r in Hnl, Hnh by lia.
    assert (0 < 2 ^ d) by (apply Z.pow_pos_nonneg; lia).
    unfold m0. split.
    - apply Z.div_le_lower_bound; lia.
    - apply Z.div_lt_upper_bound; lia. }
  assert (HP : 128 <= 2 ^ K).
  { change 128 with (2 ^ 7). apply Z.pow_le_mono_r; lia. }
  destruct (scaled_floor a (2 ^ K) m0 H0 HP Hm0) as [F0 F1].
  replace (la - 6 - 55 - 1 + d) with (- K) by (unfold K; lia).
  replace (la - 6 - 55 + d) with (- (K - 1)) by (unfold K; lia).
  set (up := (2 ^ (d - 1) <? n mod 2 ^ d) || (n mod 2 ^ d =? 2 ^ (d - 1)) && Z.odd m0).
  destruct up.
  - destruct (Z.eqb_spec (m0 + 1) (2 ^ 53)) as [Hc | Hc]; unfold py_int.
    + replace (0 <=? - (K - 1)) with false by (symmetry; apply Z.leb_gt; lia).
      rewrite Z.opp_involutive.
      change (Z.pos (Z.to_pos (2 ^ 52))) with (2 ^ 52).
      f_equal. rewrite <- F1, Hc.
      replace (2 ^ 53) with (2 ^ 52 * 2) by reflexivity.
      replace (2 ^ K) with (2 ^ (K - 1) * 2)
        by (rewrite Z.mul_comm, <- Z.pow_succ_r by lia; f_equal; lia).
      symmetry. apply Z.div_mul_cancel_r; [ | lia ].
      assert (0 < 2 ^ (K - 1)) by (apply Z.pow_pos_nonneg; lia). lia.
    + replace (0 <=? - K) with false by (symmetry; apply Z.leb_gt; lia).
      rewrite Z.opp_involutive, Z2Pos.id by lia. now rewrite F1.
  - destruct (Z.eqb_spec m0 (2 ^ 53)) as [Hc | Hc]; [ lia | ]. unfold py_int.
    replace (0 <=? - K) with false by (symmetry; apply Z.leb_gt; lia).
    rewrite Z.opp_involutive, Z2Pos.id by lia. now rewrite F0.
Qed.

(** ** The picture [annotate] returns *)

Section Picture.

Context (L : Library).

Lemma for_each_paint (r : loc) (t : pyval) (ps : list pyval) :
  forall (w : world) (a : ndarray),
    heap w !! r = Some a ->
    outcome (for_each ps (draw_box L r t) w) = fst (paint L t ps a) /\
    heap (final (for_each ps (draw_box L r t) w)) !! r = Some (snd (paint L t ps a)).
Proof.
  induction ps as [|p ps IH]; intros w a Hr; [ simpl; auto | ].
  rewrite for_each_cons, draw_box_run. simpl paint.
  destruct (box_of p) as [[p1 p2]|e]; [ | simpl; auto ].
  unfold bind. rewrite cv2_rectangle_run. cbv zeta. rewrite Hr.
  destruct (cv_rectangle L a p1 p2 white t) as [a'|e]; simpl; [ | auto ].
  apply IH. simpl. apply list_lookup_insert_eq. eapply lookup_lt_Some; eauto.
Qed.

Lemma annotate_observe (img : loc) (ps : list pyval) (t : pyval) (w : world) (a : ndarray) :
  heap w !! img = Some a ->
  observe (annotate L img ps t w) = picture_of L t ps a.
Proof.
  intros H. rewrite (annotate_run L _ _ _ _ _ H). unfold picture_of.
  destruct (resolved t a) as [t'|e]; [ | reflexivity ].
  assert (Hc : heap (copied img a w) !! length (heap w) = Some a) by apply lookup_fresh.
  destruct (for_each_paint (length (heap w)) t' ps _ a Hc) as [Ho Hh].
  destruct (for_each ps _ _) as [[[]|e] w']; simpl in *;
    destruct (paint L t' ps a) as [[[]|e'] a']; simpl in *; congruence.
Qed.

Lemma paint_app (t : pyval) (ps qs : list pyval) :
  forall a, fst (paint L t ps a) = Ok tt ->
    paint L t (ps ++ qs) a = paint L t qs (snd (paint L t ps a)).
Proof.
  induction ps as [|p ps IH]; intros a Hok; [ reflexivity | ].
  simpl in *. destruct (box_of p) as [[p1 p2]|e]; [ | discriminate ].
  destruct (cv_rectangle L a p1 p2 white t) as [a'|e]; [ | discriminate ].
  apply IH, Hok.
Qed.

Lemma paint_layout (t : pyval) (ps : list pyval) :
  rectangle_in_place L ->
  forall a, shape (snd (paint L t ps a)) = shape a.
Proof.
  intros HL. induction ps as [|p ps IH]; intros a; [ reflexivity | ].
  simpl. destruct (box_of p) as [[p1 p2]|e]; [ | reflexivity ].
  destruct (cv_rectangle L a p1 p2 white t) as [a'|e] eqn:Hc; [ | reflexivity ].
  rewrite IH. eapply HL; eauto.
Qed.

Lemma annotate_keeps_input (img : loc) (ps : list pyval) (t : pyval) (w : world) (a : ndarray) :
  heap w !! img = Some a ->
  heap (final (annotate L img ps t w)) !! img = Some a.
Proof.
  intros H.
  assert (Hlt : (img < length (heap w))%nat) by (eapply lookup_lt_Some; eauto).
  destruct (annotate_summary L img ps t w a H) as (evs & D & _).
  rewrite (drawn_others _ _ _ _ D) by lia.
  simpl. rewrite lookup_app_l; auto.
Qed.

(** X2. [annotate] can be repeated: called again on the same image after
    a first call, it shows the caller the same picture (or the same
    exception) as the first time, because the first call drew on a
    copy. *)
Theorem annotate_repeatable (img : loc) (ps : list pyval) (t : pyval) (w : world) :
  is_Some (heap w !! img) ->
  observe (annotate L img ps t (final (annotate L img ps t w)))
  = observe (annotate L img ps t w).
Proof.
  intros [a H].
  rewrite (annotate_observe _ _ _ _ _ (annotate_keeps_input img ps t w a H)).
  now rewrite (annotate_observe _ _ _ _ _ H).
Qed.

(** X3. Annotating in two passes gives the picture of one pass: when
    [annotate(img, ps)] returns [r1], then [annotate(r1, qs)] shows the
    caller what [annotate(img, ps + qs)] shows, given that [cv2.rectangle]
    keeps the shape of the array (so the default thickness is the same in
    both passes). *)
Theorem annotate_in_two_passes
    (img r1 : loc) (ps qs : list pyval) (t : pyval) (w w1 : world) :
  rectangle_in_place L ->
  is_Some (heap w !! img) ->
  annotate L img ps t w = (Ok r1, w1) ->
  observe (annotate L r1 qs t w1) = observe (annotate L img (ps ++ qs) t w).
Proof.
  intros HL [a H] Hrun.
  pose proof (annotate_observe img ps t w a H) as Hobs.
  rewrite Hrun in Hobs. simpl in Hobs. unfold picture_of in Hobs.
  rewrite (annotate_observe img (ps ++ qs) t w a H). unfold picture_of.
  destruct (resolved t a) as [t'|e] eqn:Hres; [ | discriminate ].
  destruct (paint L t' ps a) as [[[]|e] a1] eqn:Hp; [ | discriminate ].
  injection Hobs as Hr1.
  rewrite (annotate_observe r1 qs t w1 a1 Hr1). unfold picture_of.
  assert (Hsh : shape a1 = shape a).
  { replace a1 with (snd (paint L t' ps a)) by now rewrite Hp. now apply paint_layout. }
  assert (Hres1 : resolved t a1 = Ok t') by (unfold resolved in *; now rewrite Hsh).
  rewrite Hres1, paint_app by now rewrite Hp.
  now rewrite Hp.
Qed.

Lemma for_each_raise_app {A} (body : A -> M unit) (ps rest : list A) :
  forall w e, outcome (for_each ps body w) = Raise e ->
    for_each (ps ++ rest) body w = for_each ps body w.
Proof.
  induction ps as [|p ps IH]; intros w e H; [ discriminate | ].
  simpl app. rewrite !for_each_cons in *.
  destruct (body p w) as [[[]|e'] w1]; [ | reflexivity ].
  eapply IH; eauto.
Qed.

(** X4. [annotate] stops at the first failure: once it raises on a list
    of detections, any detections appended to that list are never read
    and never drawn; outcome, store and trace are the same. *)
Theorem annotate_stops_at_first_failure
    (img : loc) (ps rest : list pyval) (t : pyval) (w : world) (e : exn) :
  outcome (annotate L img ps t w) = Raise e ->
  annotate L img (ps ++ rest) t w = annotate L img ps t w.
Proof.
  intros H.
  destruct (heap w !! img) as [a|] eqn:Hi.
  - rewrite (annotate_run L img ps t w a Hi) in H.
    rewrite (annotate_run L img ps t w a Hi), (annotate_run L img (ps ++ rest) t w a Hi).
    destruct (resolved t a) as [t'|e0]; [ | reflexivity ].
    destruct (for_each ps _ _) as [[[]|e0] w'] eqn:Hf; [ discriminate | ].
    rewrite (for_each_raise_app _ _ rest _ e0), Hf; [ reflexivity | now rewrite Hf ].
  - now rewrite !annotate_dangling.
Qed.

(** X5. With the thickness left out, an image with fewer than two
    dimensions makes [annotate] raise [IndexError] from [img.shape[...]]:
    by then the copy has been made, and no rectangle is drawn. *)
Theorem annotate_needs_two_dimensions
    (img : loc) (ps : list pyval) (w : world) (a : ndarray) :
  heap w !! img = Some a ->
  (length (shape a) < 2)%nat ->
  annotate L img ps VNone w
  = (Raise (IndexError "tuple index out of range"), copied img a w).
Proof.
  intros H Hdim. rewrite (annotate_run L _ _ _ _ _ H).
  unfold resolved, default_of_shape, tuple_index. simpl.
  destruct (shape a) as [|h [|wd rest]]; simpl in *; try reflexivity. lia.
Qed.

End Picture.

(** ** Relations that every step of a computation respects *)

Create HintDb respects.

Section Respects.

Context (L : Library) (R : world -> world -> Prop) (okc : call -> Prop) (HR : Steps R okc).

Lemma respects_ret {A} (a : A) : respects R (ret a).
Proof. intros w. apply (steps_refl _ _ HR). Qed.

Lemma respects_lift {A} (r : result A) : respects R (lift r).
Proof. intros w. apply (steps_refl _ _ HR). Qed.

Lemma respects_bind {A B} (m : M A) (k : A -> M B) :
  respects R m -> (forall a, respects R (k a)) -> respects R (bind m k).
Proof.
  intros Hm Hk w. specialize (Hm w). unfold bind.
  destruct (m w) as [[a|e] w1]; simpl in *; [ | exact Hm ].
  eapply (steps_trans _ _ HR); [ exact Hm | apply Hk ].
Qed.

Lemma respects_log (c : call) : okc c -> respects R (log c).
Proof. intros Hc w. apply (steps_log _ _ HR), Hc. Qed.

Lemma respects_alloc (a : ndarray) : respects R (alloc a).
Proof. intros w. apply (steps_alloc _ _ HR). Qed.

Lemma respects_deref (r : loc) : respects R (deref r).
Proof. intros w. unfold deref. destruct (heap w !! r); apply (steps_refl _ _ HR). Qed.

Lemma respects_get_files : respects R get_files.
Proof. intros w. apply (steps_refl _ _ HR). Qed.

Lemma respects_get_heap : respects R get_heap.
Proof. intros w. apply (steps_refl _ _ HR). Qed.

Lemma respects_for_each {A} (l : list A) (body : A -> M unit) :
  (forall x, respects R (body x)) -> respects R (for_each l body).
Proof.
  intros Hb. induction l as [|x l IH]; simpl.
  - apply respects_ret.
  - apply respects_bind; [ apply Hb | intros _; exact IH ].
Qed.

Lemma respects_callback {A} (m : M A) : respects R m -> respects R (callback m).
Proof. intros Hm w. apply Hm. Qed.

Lemma respects_select {A} (f : string -> M A) (choices : list string) (picks : list nat) :
  (forall c, c ∈ choices -> respects R (f c)) ->
  respects R (select f choices picks).
Proof.
  intros Hf. induction picks as [|i picks IH]; simpl.
  - apply respects_ret.
  - apply respects_bind; [ | intros _; exact IH ].
    destruct (choices !! i) as [c|] eqn:Hc; [ | apply respects_ret ].
    apply respects_callback, Hf. eapply list_elem_of_lookup_2; eauto.
Qed.

#[local] Hint Resolve respects_ret respects_lift respects_alloc respects_deref
  respects_get_files respects_get_heap : respects.

(** One step through a computation, for [respects]. *)
Ltac respects_step :=
  match goal with
  | |- respects _ (bind _ _) => eapply respects_bind; [ | intros ? ]
  | |- respects _ (log _) => eapply respects_log
  | |- respects _ (match ?x with _ => _ end) => destruct x
  | |- respects _ (let '(_, _) := ?x in _) => destruct x
  | |- respects _ _ => solve [ eauto with respects ]
  end.

Lemma respects_cv2_imread (f : string) (flags : Z) :
  okc (Call_imread f flags) -> respects R (cv2_imread L f flags).
Proof. intros Hc. unfold cv2_imread. repeat respects_step; eauto. Qed.

Lemma respects_cv2_cvtColor (src : option loc) (code : Z) :
  okc (Call_cvtColor src code) -> respects R (cv2_cvtColor L src code).
Proof. intros Hc. unfold cv2_cvtColor, deref_opt. repeat respects_step; eauto. Qed.

Lemma respects_cv2_imdecode (buf : loc) (flags : Z) :
  okc (Call_imdecode buf flags) -> respects R (cv2_imdecode L buf flags).
Proof. intros Hc. unfold cv2_imdecode. repeat respects_step; eauto. Qed.

Lemma respects_np_copy (r : loc) : okc (Call_np_copy r) -> respects R (np_copy r).
Proof. intros Hc. unfold np_copy. repeat respects_step; eauto. Qed.

Lemma respects_np_asarray_uint8 (b : list Byte.byte) :
  okc (Call_np_asarray (length b)) -> respects R (np_asarray_uint8 b).
Proof. intros Hc. unfold np_asarray_uint8. repeat respects_step; eauto. Qed.

Lemma respects_open_read (f : string) : okc (Call_open f) -> respects R (open_read f).
Proof. intros Hc. unfold open_read. repeat respects_step; eauto. Qed.

Lemma respects_listdir (d : string) : okc (Call_listdir d) -> respects R (listdir d).
Proof.
  intros Hc. unfold listdir. apply respects_bind; [ apply respects_log, Hc | intros _ ].
  intros w. destruct (dirs w !! d); apply (steps_refl _ _ HR).
Qed.

Lemma respects_TFNet (o : gmap string pyval) : okc (Call_TFNet o) -> respects R (TFNet L o).
Proof. intros Hc. unfold TFNet. repeat respects_step; eauto. Qed.

Lemma respects_return_predict (yolo : tfnet L) (img : loc) :
  okc (Call_return_predict img) -> respects R (return_predict L yolo img).
Proof. intros Hc. unfold return_predict. repeat respects_step; eauto. Qed.

Lemma respects_ext (fn : string) (args : list pyval) (kwargs : list (string * pyval)) :
  okc (Call_ext fn args kwargs) -> respects R (ext L fn args kwargs).
Proof. intros Hc. unfold ext. repeat respects_step; eauto. Qed.

Lemma respects_shape_of (r : loc) : respects R (shape_of r).
Proof. unfold shape_of. repeat respects_step. Qed.

#[local] Hint Resolve respects_shape_of : respects.

Lemma respects_loadImage (f : string) :
  okc (Call_imread f (IMREAD_COLOR L)) ->
  (forall src, okc (Call_cvtColor src (COLOR_BGR2RGB L))) ->
  respects R (loadImage L f).
Proof.
  intros H1 H2. unfold loadImage.
  apply respects_bind; [ apply respects_cv2_imread, H1 | intros src ].
  apply respects_cv2_cvtColor, H2.
Qed.

Lemma respects_after_image (yolo : tfnet L) (image : loc) :
  (forall img, okc (Call_return_predict img)) ->
  (forall img ps, respects R (annotate L img ps (VInt 5))) ->
  (forall fn args kwargs, okc (Call_ext fn args kwargs)) ->
  respects R (after_image L yolo image).
Proof.
  intros Hrp Hann Hext. unfold after_image.
  apply respects_bind; [ apply respects_return_predict, Hrp | intros ps ].
  apply respects_bind; [ apply Hann | intros r ].
  apply respects_bind; [ apply respects_ext, Hext | intros _; apply respects_ret ].
Qed.

Lemma respects_predict (yolo : tfnet L) (imageFile : string) :
  (forall c, rectangle_target c = [] -> okc c) ->
  (forall img ps, respects R (annotate L img ps (VInt 5))) ->
  respects R (predict L yolo imageFile).
Proof.
  intros Hc Hann.
  change (predict L yolo imageFile)
    with (bind (loadImage L ("/data/images/" +:+ imageFile)) (after_image L yolo)).
  apply respects_bind.
  - apply respects_loadImage; intros; apply Hc; reflexivity.
  - intros image. apply respects_after_image; auto; intros; apply Hc; reflexivity.
Qed.

Lemma respects_after_load (picks : list nat) (img : loc) :
  (forall c, rectangle_target c = [] -> okc c) ->
  (forall i ps t, respects R (annotate L i ps t)) ->
  respects R (after_load L picks img).
Proof.
  intros Hc Hann.
  assert (Hext : forall fn args kwargs, respects R (ext L fn args kwargs))
    by (intros; apply respects_ext, Hc; reflexivity).
  unfold after_load.
  apply respects_bind.
  { unfold cell_show. repeat respects_step; auto. }
  intros _. apply respects_bind.
  { unfold cell_blur_resize. repeat respects_step; auto. }
  intros _. apply respects_bind.
  { unfold cell_rotate. repeat respects_step; auto. }
  intros _. apply respects_bind.
  { apply respects_open_read, Hc. reflexivity. }
  intros img_bytes. apply respects_bind.
  { apply respects_np_asarray_uint8, Hc. reflexivity. }
  intros imgarr. apply respects_bind.
  { unfold cell_decode. apply respects_bind.
    - apply respects_cv2_imdecode, Hc. reflexivity.
    - intros src. apply respects_cv2_cvtColor, Hc. reflexivity. }
  intros img2. apply respects_bind; [ apply Hext | intros _ ].
  apply respects_bind.
  { unfold cell_histogram.
    apply respects_bind; [ | intros _; repeat respects_step; auto ].
    apply respects_for_each. intros [i color]. repeat respects_step; auto. }
  intros _. apply respects_bind.
  { apply respects_TFNet, Hc. reflexivity. }
  intros yolo. apply respects_bind.
  { unfold cell_detect.
    apply respects_bind; [ apply respects_return_predict, Hc; reflexivity | intros ps ].
    apply respects_bind; [ apply Hann | intros r ].
    repeat respects_step; auto. }
  intros predictions. unfold cell_interact.
  apply respects_bind; [ apply respects_listdir, Hc; reflexivity | intros names ].
  unfold interact.
  apply respects_bind; [ apply respects_log, Hc; reflexivity | intros _ ].
  apply respects_select. intros c _. apply respects_predict; auto.
Qed.

End Respects.

(** ** The store only grows *)

Lemma grows_steps : Steps store_grows (fun _ => True).
Proof.
  split; unfold store_grows.
  - intros w. reflexivity.
  - intros w1 w2 w3 H1 H2. etransitivity; eauto.
  - intros w c _. reflexivity.
  - intros w a. simpl. apply prefix_app_r. reflexivity.
Qed.

Lemma calls_steps (P : call -> Prop) : Steps (calls_added P) P.
Proof.
  split; unfold calls_added.
  - intros w. exists []. split; [ now rewrite app_nil_r | constructor ].
  - intros w1 w2 w3 (e1 & T1 & F1) (e2 & T2 & F2). exists (e1 ++ e2). split.
    + rewrite T2, T1. now rewrite app_assoc.
    + apply Forall_app; auto.
  - intros w c Hc. exists [c]. split; [ reflexivity | repeat constructor; exact Hc ].
  - intros w a. exists []. split; [ simpl; now rewrite app_nil_r | constructor ].
Qed.

Lemma prefix_from_lookup {A} (l1 l2 : list A) :
  (length l1 <= length l2)%nat ->
  (forall i, (i < length l1)%nat -> l2 !! i = l1 !! i) ->
  l1 `prefix_of` l2.
Proof.
  intros Hlen Hl. exists (drop (length l1) l2).
  rewrite <- (take_drop (length l1) l2) at 1. f_equal.
  apply list_eq. intros i.
  destruct (decide (i < length l1)%nat) as [Hi|Hi].
  - rewrite lookup_take_lt by exact Hi. now apply Hl.
  - rewrite lookup_take_ge by lia. symmetry. apply lookup_ge_None. lia.
Qed.

Section Store.

Context (L : Library).

Lemma annotate_grows (img : loc) (ps : list pyval) (t : pyval) :
  respects store_grows (annotate L img ps t).
Proof.
  intros w. unfold store_grows.
  destruct (heap w !! img) as [a|] eqn:H.
  - destruct (annotate_summary L img ps t w a H) as (evs & D & _).
    apply prefix_from_lookup.
    + rewrite (drawn_length _ _ _ _ D). simpl. rewrite length_app. lia.
    + intros i Hi. rewrite (drawn_others _ _ _ _ D) by lia.
      simpl. now apply lookup_app_l.
  - rewrite annotate_dangling by exact H. reflexivity.
Qed.

End Store.


(** ** Calls of a run *)

Lemma thicknesses_app (t1 t2 : list call) :
  thicknesses (t1 ++ t2) = thicknesses t1 ++ thicknesses t2.
Proof. unfold thicknesses. now rewrite map_app, concat_app. Qed.

Lemma thicknesses_none (evs : list call) :
  Forall (fun c => rectangle_thickness c = []) evs -> thicknesses evs = [].
Proof.
  induction 1 as [|c evs Hc _ IH]; [ reflexivity | ].
  unfold thicknesses in *. simpl. now rewrite Hc, IH.
Qed.

Lemma paths_read_none (evs : list call) :
  Forall reads_nothing evs -> paths_read evs = [].
Proof.
  induction 1 as [|c evs Hc _ IH]; [ reflexivity | ].
  unfold paths_read in *. simpl. now rewrite Hc, IH.
Qed.

Lemma new_calls_added {A} (m : M A) (w : world) (evs : list call) :
  trace (final (m w)) = trace w ++ evs -> new_calls m w = evs.
Proof. intros H. unfold new_calls. rewrite H. apply drop_app_length. Qed.

Section Extras.

Context (L : Library).

Lemma annotate_calls_added (P : call -> Prop) (img : loc) (ps : list pyval) (t : pyval) :
  P (Call_np_copy img) ->
  (forall r p1 p2 t', (is_None t = false -> t' = t) -> P (Call_rectangle r p1 p2 white t')) ->
  respects (calls_added P) (annotate L img ps t).
Proof.
  intros Hcopy Hrect w. unfold calls_added.
  destruct (heap w !! img) as [a|] eqn:H.
  - destruct (annotate_summary L img ps t w a H) as (evs & D & _ & T & E).
    exists (Call_np_copy img :: evs). split.
    + rewrite (drawn_trace _ _ _ _ D). simpl. now rewrite <- app_assoc.
    + constructor; [ exact Hcopy | ].
      destruct (resolved t a) as [t'|e] eqn:Hres.
      * destruct (T t' eq_refl) as (F & _).
        eapply Forall_impl; [ exact F | ].
        intros c (p1 & p2 & ->). apply Hrect. intros Hn.
        unfold resolved in Hres. rewrite Hn in Hres. congruence.
      * rewrite (E e eq_refl). constructor.
  - rewrite annotate_dangling by exact H. simpl.
    exists [Call_np_copy img]. split; [ reflexivity | repeat constructor; exact Hcopy ].
Qed.

Lemma loadImage_calls (f : string) (w : world) :
  exists evs,
    trace (final (loadImage L f w)) = trace w ++ evs /\
    paths_read evs = [f] /\ thicknesses evs = [].
Proof.
  rewrite loadImage_run. cbv zeta.
  destruct (cv_imread L (files w) f (IMREAD_COLOR L)) as [[a|]|e].
  - exists [Call_imread f (IMREAD_COLOR L);
            Call_cvtColor (Some (length (heap w))) (COLOR_BGR2RGB L)].
    destruct (cv_cvtColor L (Some a) (COLOR_BGR2RGB L)); simpl;
      (split; [ now rewrite <- app_assoc | split; reflexivity ]).
  - exists [Call_imread f (IMREAD_COLOR L); Call_cvtColor None (COLOR_BGR2RGB L)].
    destruct (cv_cvtColor L None (COLOR_BGR2RGB L)); simpl;
      (split; [ now rewrite <- app_assoc | split; reflexivity ]).
  - exists [Call_imread f (IMREAD_COLOR L)]. simpl. repeat split; reflexivity.
Qed.

Lemma ext_run (fn : string) (args : list pyval) (kwargs : list (string * pyval)) (w : world) :
  trace (final (ext L fn args kwargs w)) = trace w ++ [Call_ext fn args kwargs] /\
  store_grows w (final (ext L fn args kwargs w)).
Proof.
  unfold ext, bind, log, get_heap, lift, alloc, ret, store_grows, with_heap. simpl.
  destruct (ext_call L fn args kwargs (heap w)) as [[v|a]|e]; simpl;
    (split; [ reflexivity | ]); try reflexivity.
  apply prefix_app_r. reflexivity.
Qed.

Lemma return_predict_run (yolo : tfnet L) (img : loc) (w : world) :
  return_predict L yolo img w =
    match heap w !! img with
    | Some a => (tfnet_return_predict L yolo a, logged (Call_return_predict img) w)
    | None => (Raise (Dangling img), logged (Call_return_predict img) w)
    end.
Proof.
  unfold return_predict, bind, log, deref, lift, logged. simpl.
  destruct (heap w !! img); reflexivity.
Qed.

(** A run of [predict] that returns went through its four steps. *)
Lemma predict_returns_inv (yolo : tfnet L) (imageFile : string) (w : world) (ps : list pyval) :
  outcome (predict L yolo imageFile w) = Ok ps ->
  exists image w1 a r w3,
    loadImage L ("/data/images/" +:+ imageFile) w = (Ok image, w1) /\
    heap w1 !! image = Some a /\
    tfnet_return_predict L yolo a = Ok ps /\
    annotate L image ps (VInt 5) (logged (Call_return_predict image) w1) = (Ok r, w3) /\
    final (predict L yolo imageFile w) = final (ext L "plt.imshow" [VArr r] [] w3).
Proof.
  intros H.
  assert (Hrun : exists image w1 a r w3 v w4,
    loadImage L ("/data/images/" +:+ imageFile) w = (Ok image, w1) /\
    heap w1 !! image = Some a /\
    tfnet_return_predict L yolo a = Ok ps /\
    annotate L image ps (VInt 5) (logged (Call_return_predict image) w1) = (Ok r, w3) /\
    ext L "plt.imshow" [VArr r] [] w3 = (Ok v, w4)).
  { unfold predict in H. unfold bind at 1 in H.
    destruct (loadImage L _ w) as [[image|e] w1]; [ | discriminate ].
    unfold bind at 1 in H. rewrite return_predict_run in H.
    destruct (heap w1 !! image) as [a|] eqn:Hi; [ | discriminate ].
    destruct (tfnet_return_predict L yolo a) as [ps'|e] eqn:Hp; [ | discriminate ].
    unfold bind at 1 in H.
    destruct (annotate L image ps' (VInt 5) _) as [[r|e] w3] eqn:Ha; [ | discriminate ].
    unfold bind at 1 in H.
    destruct (ext L "plt.imshow" [VArr r] [] w3) as [[v|e] w4] eqn:He; [ | discriminate ].
    simpl in H. injection H as <-.
    exists image, w1, a, r, w3, v, w4. auto. }
  destruct Hrun as (image & w1 & a & r & w3 & v & w4 & H1 & H2 & H3 & H4 & H5).
  exists image, w1, a, r, w3. repeat split; auto.
  unfold predict, bind. rewrite H1, return_predict_run, H2, H3, H4, H5. reflexivity.
Qed.

End Extras.

(** ** [predict], the two routes and the cells *)

Section MoreExtras.

Context (L : Library).

Lemma not_rectangle_draws_with (t : pyval) (c : call) :
  rectangle_target c = [] -> draws_with t c.
Proof. destruct c; simpl; auto. discriminate. Qed.

(** X6. Every rectangle [predict] draws is white with thickness 5,
    whatever the size of the image; and a run of [predict] that returns
    has drawn exactly one rectangle for each detection it returns. *)
Theorem predict_draws_with_thickness_5 (yolo : tfnet L) (imageFile : string) (w : world) :
  Forall (draws_with (VInt 5)) (new_calls (predict L yolo imageFile) w) /\
  (forall ps, outcome (predict L yolo imageFile w) = Ok ps ->
     thicknesses (new_calls (predict L yolo imageFile) w) = replicate (length ps) (VInt 5)).
Proof.
  split.
  - destruct (respects_predict L _ _ (calls_steps (draws_with (VInt 5))) yolo imageFile
                (not_rectangle_draws_with (VInt 5))) with (w := w) as (evs & T & F).
    + intros img ps. apply annotate_calls_added; [ exact I | ].
      intros r p1 p2 t' Ht. split; [ reflexivity | now apply Ht ].
    + now rewrite (new_calls_added _ _ _ T).
  - intros ps Hret.
    destruct (predict_returns_inv L yolo imageFile w ps Hret)
      as (image & w1 & a & r & w3 & H1 & H2 & H3 & H4 & H5).
    destruct (loadImage_calls L ("/data/images/" +:+ imageFile) w) as (l1 & T1 & _ & N1).
    rewrite H1 in T1. simpl in T1.
    assert (Hi : heap (logged (Call_return_predict image) w1) !! image = Some a) by exact H2.
    destruct (annotate_summary L image ps (VInt 5) _ a Hi) as (evs & D & _ & T & _).
    destruct (T (VInt 5) eq_refl) as (F & _ & K).
    rewrite H4 in D, K. simpl in D, K.
    pose proof (drawn_trace _ _ _ _ D) as T3. simpl in T3.
    destruct (ext_run L "plt.imshow" [VArr r] [] w3) as [T4 _].
    rewrite (new_calls_added _ _
               (l1 ++ [Call_return_predict image; Call_np_copy image] ++ evs
                   ++ [Call_ext "plt.imshow" [VArr r] []])).
    + rewrite !thicknesses_app, N1, (thicknesses_rect_calls _ _ _ F), (K r eq_refl).
      simpl. now rewrite app_nil_r.
    + rewrite H5, T4, T3, T1. simpl. now rewrite <- !app_assoc.
Qed.

(** X10. The list [predict] returns is what the model gave for the
    image as [loadImage] returned it, and that image is still intact,
    undrawn, when [predict] ends: the boxes went on a copy. *)
Theorem predict_returns_the_detections
    (yolo : tfnet L) (imageFile : string) (w : world) (ps : list pyval) :
  outcome (predict L yolo imageFile w) = Ok ps ->
  exists image w1 a,
    loadImage L ("/data/images/" +:+ imageFile) w = (Ok image, w1) /\
    heap w1 !! image = Some a /\
    tfnet_return_predict L yolo a = Ok ps /\
    heap (final (predict L yolo imageFile w)) !! image = Some a.
Proof.
  intros Hret.
  destruct (predict_returns_inv L yolo imageFile w ps Hret)
    as (image & w1 & a & r & w3 & H1 & H2 & H3 & H4 & H5).
  exists image, w1, a. repeat split; auto.
  assert (Hi : heap (logged (Call_return_predict image) w1) !! image = Some a) by exact H2.
  pose proof (annotate_keeps_input L image ps (VInt 5) _ a Hi) as Hk.
  rewrite H4 in Hk. simpl in Hk.
  rewrite H5. destruct (ext_run L "plt.imshow" [VArr r] [] w3) as [_ G].
  eapply prefix_lookup_Some; eauto.
Qed.

(** X11. [predict(imageFile)] hands exactly one path to the file system,
    ["/data/images/" + imageFile], whether it returns or raises. *)
Theorem predict_reads_one_path (yolo : tfnet L) (imageFile : string) (w : world) :
  paths_read (new_calls (predict L yolo imageFile) w) = ["/data/images/" +:+ imageFile].
Proof.
  destruct (loadImage_calls L ("/data/images/" +:+ imageFile) w) as (l1 & T1 & P1 & _).
  change (predict L yolo imageFile)
    with (bind (loadImage L ("/data/images/" +:+ imageFile)) (after_image L yolo)).
  unfold new_calls, bind.
  destruct (loadImage L ("/data/images/" +:+ imageFile) w) as [[image|e] w1]; simpl in *.
  - destruct (respects_after_image L _ _ (calls_steps reads_nothing) yolo image)
      with (w := w1) as (evs & T & F).
    + intros img. reflexivity.
    + intros img ps. apply annotate_calls_added; [ reflexivity | ].
      intros; reflexivity.
    + intros fn args kwargs. reflexivity.
    + rewrite T, T1, <- app_assoc, drop_app_length, paths_read_app, P1.
      now rewrite (paths_read_none _ F).
  - now rewrite T1, drop_app_length.
Qed.

(** X12. [predict] changes no array that existed before the call: every
    reference live before holds the same contents after, whether
    [predict] returns or raises. *)
Theorem predict_keeps_store
    (yolo : tfnet L) (imageFile : string) (w : world) (r : loc) (a : ndarray) :
  heap w !! r = Some a ->
  heap (final (predict L yolo imageFile w)) !! r = Some a.
Proof.
  intros H.
  pose proof (respects_predict L _ _ grows_steps yolo imageFile
                (fun c _ => I) (fun img ps => annotate_grows L img ps (VInt 5)) w) as G.
  eapply prefix_lookup_Some; eauto.
Qed.

(** X13. Once the first cell has loaded the picture, no later cell of the
    notebook changes it, nor any other array live at that point: blur,
    resize, rotation, histograms, detection and drawing all work on other
    arrays. *)
Theorem notebook_keeps_loaded_image
    (picks : list nat) (w w1 : world) (img r : loc) (a : ndarray) :
  cell_load L w = (Ok img, w1) ->
  heap w1 !! r = Some a ->
  heap (final (notebook L picks w)) !! r = Some a.
Proof.
  intros Hload H.
  change (notebook L picks) with (bind (cell_load L) (after_load L picks)).
  unfold bind. rewrite Hload.
  pose proof (respects_after_load L _ _ grows_steps picks img
                (fun c _ => I) (annotate_grows L) w1) as G.
  eapply prefix_lookup_Some; eauto.
Qed.

(** X9. On a file that is not there, [predict] stops in [loadImage]: it
    makes the two OpenCV calls, raises what [cv2.cvtColor] raises on the
    empty image, never runs the model and allocates nothing (given that
    [cv2.imread] returns an empty matrix for a missing file and
    [cv2.cvtColor] rejects it). *)
Theorem predict_missing_file (yolo : tfnet L) (imageFile : string) (w : world) :
  cvtColor_rejects_None L -> imread_missing L ->
  files w !! ("/data/images/" +:+ imageFile) = None ->
  exists e,
    cv_cvtColor L None (COLOR_BGR2RGB L) = Raise e /\
    outcome (predict L yolo imageFile w) = Raise e /\
    new_calls (predict L yolo imageFile) w
    = [Call_imread ("/data/images/" +:+ imageFile) (IMREAD_COLOR L);
       Call_cvtColor None (COLOR_BGR2RGB L)] /\
    heap (final (predict L yolo imageFile w)) = heap w.
Proof.
  intros Hnone Hmiss Hf.
  destruct (Hnone (COLOR_BGR2RGB L)) as [e He]. exists e.
  split; [ exact He | ].
  assert (Hrun : predict L yolo imageFile w
                 = (Raise e, logged (Call_cvtColor None (COLOR_BGR2RGB L))
                               (logged (Call_imread ("/data/images/" +:+ imageFile)
                                          (IMREAD_COLOR L)) w))).
  { change (predict L yolo imageFile)
      with (bind (loadImage L ("/data/images/" +:+ imageFile)) (after_image L yolo)).
    unfold bind. rewrite loadImage_run. cbv zeta.
    now rewrite (Hmiss _ _ _ Hf), He. }
  unfold new_calls. rewrite Hrun. simpl.
  repeat split. now rewrite <- app_assoc, drop_app_length.
Qed.

(** X14. On a file that is not there the two routes differ: the
    byte-buffer route raises Python's [FileNotFoundError] at [open], before
    any array exists or any OpenCV call is made, while [loadImage] makes
    both OpenCV calls and raises what [cv2.cvtColor] raises (given that
    [cv2.imread] gives an empty matrix there and [cv2.cvtColor] rejects
    it). *)
Theorem routes_differ_on_missing_file (f : string) (w : world) :
  cvtColor_rejects_None L -> imread_missing L ->
  files w !! f = None ->
  byte_route L f w = (Raise (FileNotFoundError f), logged (Call_open f) w) /\
  exists e,
    cv_cvtColor L None (COLOR_BGR2RGB L) = Raise e /\
    loadImage L f w
    = (Raise e, logged (Call_cvtColor None (COLOR_BGR2RGB L))
                  (logged (Call_imread f (IMREAD_COLOR L)) w)).
Proof.
  intros Hnone Hmiss Hf. split.
  - unfold byte_route, open_read, bind, log, get_files, lift. simpl. now rewrite Hf.
  - destruct (Hnone (COLOR_BGR2RGB L)) as [e He]. exists e. split; [ exact He | ].
    rewrite loadImage_run. cbv zeta. now rewrite (Hmiss _ _ _ Hf), He.
Qed.

(** X15. [loadImage] does not cache: after a load that returned [r1], a
    second load of the same file returns another reference, holding the
    same pixels, and the array at [r1] is as it was. *)
Theorem loadImage_twice (f : string) (w w1 : world) (r1 : loc) :
  loadImage L f w = (Ok r1, w1) ->
  exists r2 w2,
    loadImage L f w1 = (Ok r2, w2) /\
    r2 <> r1 /\
    heap w2 !! r2 = heap w1 !! r1 /\
    heap w2 !! r1 = heap w1 !! r1 /\
    is_Some (heap w1 !! r1).
Proof.
  rewrite !loadImage_run. cbv zeta.
  destruct (cv_imread L (files w) f (IMREAD_COLOR L)) as [[a|]|e] eqn:Hr; [ | | discriminate ].
  - destruct (cv_cvtColor L (Some a) (COLOR_BGR2RGB L)) as [d|e] eqn:Hc; [ | discriminate ].
    intros [= <- <-]. simpl. rewrite Hr, Hc.
    set (h0 := heap w ++ [a]). set (h1 := h0 ++ [d]).
    assert (H1 : h1 !! length h0 = Some d) by apply lookup_fresh.
    eexists _, _. split; [ reflexivity | ]. simpl.
    split; [ unfold h1; rewrite !length_app; simpl; lia | ].
    split; [ transitivity (Some d); [ apply lookup_fresh | symmetry; exact H1 ] | ].
    split; [ | eexists; exact H1 ].
    rewrite lookup_app_l; [ apply lookup_app_l | ];
      unfold h1; rewrite ?length_app; simpl; lia.
  - destruct (cv_cvtColor L None (COLOR_BGR2RGB L)) as [d|e] eqn:Hc; [ | discriminate ].
    intros [= <- <-]. simpl. rewrite Hr. try rewrite Hc.
    set (h1 := heap w ++ [d]).
    assert (H1 : h1 !! length (heap w) = Some d) by apply lookup_fresh.
    eexists _, _. split; [ reflexivity | ]. simpl.
    split; [ unfold h1; rewrite !length_app; simpl; lia | ].
    split; [ transitivity (Some d); [ apply lookup_fresh | symmetry; exact H1 ] | ].
    split; [ | eexists; exact H1 ].
    apply lookup_app_l. unfold h1; rewrite ?length_app; simpl; lia.
Qed.

End MoreExtras.

(** ** The order and the thickness of the rectangles *)

Section OrderAndThickness.

Context (L : Library).

Lemma for_each_trace_exact (r : loc) (t : pyval) (ps : list pyval) :
  forall w w',
    for_each ps (draw_box L r t) w = (Ok tt, w') ->
    exists boxes,
      Forall2 (fun p b => box_of p = Ok b) ps boxes /\
      trace w' = trace w ++ map (rectangle_call r t) boxes.
Proof.
  induction ps as [|p ps IH]; intros w w' H.
  - injection H as <-. exists []. split; [ constructor | simpl; now rewrite app_nil_r ].
  - rewrite for_each_cons, draw_box_run in H.
    destruct (box_of p) as [[p1 p2]|e] eqn:Hb; [ | discriminate ].
    unfold bind in H. rewrite cv2_rectangle_run in H. cbv zeta in H.
    destruct (heap w !! r) as [a|]; [ | discriminate ].
    destruct (cv_rectangle L a p1 p2 white t) as [a'|e]; [ | discriminate ].
    simpl in H. destruct (IH _ _ H) as (boxes & F & T).
    exists ((p1, p2) :: boxes). split; [ constructor; auto | ].
    rewrite T. simpl. now rewrite <- app_assoc.
Qed.

(** X7. A run of [annotate] that returns has read the box of every
    detection and made, after the copy, exactly one [cv2.rectangle] call
    per detection, in the order of the list, each on the returned array
    with the corners read from that detection. *)
Theorem annotate_draws_in_order
    (img r : loc) (ps : list pyval) (t : pyval) (w : world) (a : ndarray) :
  heap w !! img = Some a ->
  outcome (annotate L img ps t w) = Ok r ->
  exists t' boxes,
    resolved t a = Ok t' /\
    Forall2 (fun p b => box_of p = Ok b) ps boxes /\
    new_calls (annotate L img ps t) w = Call_np_copy img :: map (rectangle_call r t') boxes.
Proof.
  intros H Hret. unfold new_calls.
  rewrite (annotate_run L _ _ _ _ _ H) in *.
  destruct (resolved t a) as [t'|e]; [ | discriminate ].
  destruct (for_each ps _ _) as [[[]|e] w'] eqn:Hf; [ | discriminate ].
  simpl in Hret. injection Hret as <-.
  destruct (for_each_trace_exact _ _ _ _ _ Hf) as (boxes & F & T).
  exists t', boxes. repeat split; auto.
  simpl. rewrite T. simpl. now rewrite <- app_assoc, drop_app_length.
Qed.

(** X8. For an image whose larger dimension is below [2^52], the default
    thickness [int(max(height, width) / 100)] is the integer quotient of
    that dimension by 100 (the float division never rounds across an
    integer), and that is the thickness of every rectangle drawn. *)
Theorem annotate_floor_thickness
    (img : loc) (ps : list pyval) (w : world) (a : ndarray) (h wd : N) (rest : list N) :
  heap w !! img = Some a ->
  shape a = h :: wd :: rest ->
  (N.max h wd < 2 ^ 52)%N ->
  int_truediv (Z.max (Z.of_N h) (Z.of_N wd)) 100 = Ok (Z.of_N (N.max h wd) / 100) /\
  (exists n, (n <= length ps)%nat /\
     thicknesses (new_calls (annotate L img ps VNone) w)
     = replicate n (VInt (Z.of_N (N.max h wd) / 100))) /\
  (forall r, outcome (annotate L img ps VNone w) = Ok r ->
     thicknesses (new_calls (annotate L img ps VNone) w)
     = replicate (length ps) (VInt (Z.of_N (N.max h wd) / 100))).
Proof.
  intros H Hs Hmax.
  assert (Hdiv : int_truediv (Z.max (Z.of_N h) (Z.of_N wd)) 100
                 = Ok (Z.of_N (N.max h wd) / 100)).
  { rewrite <- N2Z.inj_max. apply int_truediv_100_floor.
    split; [ apply N2Z.is_nonneg | ].
    change (2 ^ 52) with (Z.of_N (2 ^ 52)). now apply N2Z.inj_lt. }
  assert (Hres : resolved VNone a = Ok (VInt (Z.of_N (N.max h wd) / 100))).
  { unfold resolved, default_of_shape, tuple_index. rewrite Hs. simpl. now rewrite Hdiv. }
  split; [ exact Hdiv | ].
  destruct (annotate_summary L img ps VNone w a H) as (evs & D & R & T & E).
  destruct (T _ Hres) as (F & B & K).
  assert (Hn : new_calls (annotate L img ps VNone) w = Call_np_copy img :: evs).
  { apply new_calls_added. rewrite (drawn_trace _ _ _ _ D). simpl.
    now rewrite <- app_assoc. }
  assert (Hth : thicknesses (Call_np_copy img :: evs)
                = replicate (length evs) (VInt (Z.of_N (N.max h wd) / 100))).
  { rewrite <- (thicknesses_rect_calls _ _ _ F). reflexivity. }
  rewrite Hn, Hth. split.
  - exists (length evs). auto.
  - intros r Hr. now rewrite (K r Hr).
Qed.

End OrderAndThickness.

(** ** Detections without a box, and images that fit *)

Section Fits.

Context (L : Library).

Lemma for_each_app_ok {A} (body : A -> M unit) (ps qs : list A) :
  forall w w1, for_each ps body w = (Ok tt, w1) ->
    for_each (ps ++ qs) body w = for_each qs body w1.
Proof.
  induction ps as [|p ps IH]; intros w w1 H.
  - injection H as <-. reflexivity.
  - simpl app. rewrite for_each_cons in *.
    destruct (body p w) as [[[]|e] w0]; [ | discriminate ].
    now apply IH.
Qed.

(** X17. A detection without the key ["topleft"] makes [annotate] raise
    [KeyError("topleft")]: the boxes of the detections before it are
    drawn as [annotate] on those alone draws them, and nothing after it is
    read. *)
Theorem annotate_missing_topleft
    (img r : loc) (good rest : list pyval) (d : gmap string pyval) (t : pyval) (w : world) :
  d !! "topleft" = None ->
  outcome (annotate L img good t w) = Ok r ->
  annotate L img (good ++ VDict d :: rest) t w
  = (Raise (KeyError "topleft"), final (annotate L img good t w)).
Proof.
  intros Hd Hret.
  destruct (heap w !! img) as [a|] eqn:Hi.
  - rewrite (annotate_run L img good t w a Hi) in *.
    rewrite (annotate_run L img (good ++ VDict d :: rest) t w a Hi).
    destruct (resolved t a) as [t'|e]; [ | discriminate ].
    destruct (for_each good _ _) as [[[]|e] w1] eqn:Hf; [ | discriminate ].
    rewrite (for_each_app_ok _ _ _ _ _ Hf), for_each_cons, draw_box_run.
    unfold box_of, subscript. rewrite Hd. reflexivity.
  - rewrite annotate_dangling in Hret by exact Hi. discriminate.
Qed.

(** X16. An image that [loadImage] returned fits the shape-dependent code
    of the notebook: the default thickness of [annotate] is defined on it
    and [rows, cols, _ = img.shape] unpacks it with three channels (given
    that [cv2.imread] in colour mode gives three channels or nothing, and
    that [cv2.cvtColor] keeps the size of a three-channel image and
    rejects an empty matrix). *)
Theorem loaded_image_fits_the_cells (f : string) (w w1 : world) (img : loc) :
  imread_color L -> cvtColor_same_size L -> cvtColor_rejects_None L ->
  loadImage L f w = (Ok img, w1) ->
  (exists t, default_thickness img w1 = (Ok (VInt t), w1)) /\
  (exists rows cols,
     (let* s := shape_of img in lift (unpack3 s)) w1 = (Ok (rows, cols, 3), w1)).
Proof.
  intros Hread Hcvt Hnone Hrun.
  assert (Himg : exists a h wd, heap w1 !! img = Some a /\ shape a = [h; wd; 3%N]).
  { rewrite loadImage_run in Hrun. cbv zeta in Hrun.
    destruct (cv_imread L (files w) f (IMREAD_COLOR L)) as [[a|]|e] eqn:Hr;
      [ | | discriminate ].
    - destruct (Hread _ _ _ Hr) as (_ & h & wd & Hs).
      destruct (cv_cvtColor L (Some a) (COLOR_BGR2RGB L)) as [d|e] eqn:Hc; [ | discriminate ].
      injection Hrun as <- <-. exists d, h, wd. split; [ apply lookup_fresh | ].
      destruct (Hcvt _ _ _ _ Hs Hc) as [Hs' _]. congruence.
    - destruct (Hnone (COLOR_BGR2RGB L)) as [e He]. rewrite He in Hrun. discriminate. }
  destruct Himg as (a & h & wd & Ha & Hs). split.
  - rewrite (default_thickness_run _ _ _ Ha), Hs.
    destruct (default_of_shape_image h wd [3%N]) as (t & _ & ->). eauto.
  - exists (Z.of_N h), (Z.of_N wd).
    unfold shape_of, bind, deref, ret, lift. rewrite Ha, Hs. reflexivity.
Qed.

End Fits.

(** ** The further statements on the small instance of the libraries *)

Lemma annotate_repeatable_witness :
  is_Some (heap Reference.loaded !! 0%nat) /\
  observe (annotate Reference.lib 0%nat [Reference.dog] VNone
             (final (annotate Reference.lib 0%nat [Reference.dog] VNone Reference.loaded)))
  = observe (annotate Reference.lib 0%nat [Reference.dog] VNone Reference.loaded).
Proof.
  assert (H : is_Some (heap Reference.loaded !! 0%nat)) by (eexists; reflexivity).
  split; [ exact H | ].
  exact (annotate_repeatable Reference.lib 0%nat [Reference.dog] VNone Reference.loaded H).
Defined.

Lemma annotate_in_two_passes_witness :
  rectangle_in_place Reference.lib /\
  is_Some (heap Reference.loaded !! 0%nat) /\
  annotate Reference.lib 0%nat [Reference.dog] VNone Reference.loaded
  = (Ok 1%nat, final (annotate Reference.lib 0%nat [Reference.dog] VNone Reference.loaded)) /\
  observe (annotate Reference.lib 1%nat [Reference.sofa] VNone
             (final (annotate Reference.lib 0%nat [Reference.dog] VNone Reference.loaded)))
  = observe (annotate Reference.lib 0%nat ([Reference.dog] ++ [Reference.sofa]) VNone
               Reference.loaded).
Proof.
  assert (H : is_Some (heap Reference.loaded !! 0%nat)) by (eexists; reflexivity).
  assert (Hrun : annotate Reference.lib 0%nat [Reference.dog] VNone Reference.loaded
                 = (Ok 1%nat, final (annotate Reference.lib 0%nat [Reference.dog] VNone
                                       Reference.loaded))) by (vm_compute; reflexivity).
  split; [ exact reference_rectangle_in_place | ].
  split; [ exact H | ]. split; [ exact Hrun | ].
  exact (annotate_in_two_passes Reference.lib 0%nat 1%nat [Reference.dog] [Reference.sofa]
           VNone Reference.loaded _ reference_rectangle_in_place H Hrun).
Defined.

Lemma annotate_stops_at_first_failure_witness :
  outcome (annotate Reference.lib 0%nat [Reference.unboxed] VNone Reference.loaded)
  = Raise (KeyError "topleft") /\
  annotate Reference.lib 0%nat ([Reference.unboxed] ++ [Reference.dog]) VNone Reference.loaded
  = annotate Reference.lib 0%nat [Reference.unboxed] VNone Reference.loaded.
Proof.
  assert (H : outcome (annotate Reference.lib 0%nat [Reference.unboxed] VNone Reference.loaded)
              = Raise (KeyError "topleft")) by (vm_compute; reflexivity).
  split; [ exact H | ].
  exact (annotate_stops_at_first_failure Reference.lib 0%nat [Reference.unboxed]
           [Reference.dog] VNone Reference.loaded _ H).
Defined.

Lemma annotate_needs_two_dimensions_witness :
  heap Reference.flat !! 0%nat = Some (asarray_uint8 Reference.picture) /\
  (length (shape (asarray_uint8 Reference.picture)) < 2)%nat /\
  annotate Reference.lib 0%nat [Reference.dog] VNone Reference.flat
  = (Raise (IndexError "tuple index out of range"),
     copied 0%nat (asarray_uint8 Reference.picture) Reference.flat).
Proof.
  split; [ reflexivity | ]. split; [ simpl; lia | ].
  apply (annotate_needs_two_dimensions Reference.lib 0%nat [Reference.dog] Reference.flat
           (asarray_uint8 Reference.picture)); [ reflexivity | simpl; lia ].
Defined.

Lemma predict_draws_with_thickness_5_witness :
  outcome (predict Reference.lib options "cat.jpg" Reference.start)
  = Ok [Reference.detection "dog" float_0_1 0 0 2 1] /\
  thicknesses (new_calls (predict Reference.lib options "cat.jpg") Reference.start)
  = replicate 1 (VInt 5).
Proof.
  assert (H : outcome (predict Reference.lib options "cat.jpg" Reference.start)
              = Ok [Reference.detection "dog" float_0_1 0 0 2 1]) by (vm_compute; reflexivity).
  split; [ exact H | ].
  exact (proj2 (predict_draws_with_thickness_5 Reference.lib options "cat.jpg" Reference.start)
           _ H).
Defined.

Lemma annotate_draws_in_order_witness :
  heap Reference.loaded !! 0%nat = Some Reference.image /\
  outcome (annotate Reference.lib 0%nat [Reference.dog; Reference.sofa] (VInt 5)
             Reference.loaded) = Ok 1%nat /\
  exists t' boxes,
    resolved (VInt 5) Reference.image = Ok t' /\
    Forall2 (fun p b => box_of p = Ok b) [Reference.dog; Reference.sofa] boxes /\
    new_calls (annotate Reference.lib 0%nat [Reference.dog; Reference.sofa] (VInt 5))
      Reference.loaded
    = Call_np_copy 0%nat :: map (rectangle_call 1%nat t') boxes.
Proof.
  split; [ reflexivity | ]. split; [ vm_compute; reflexivity | ].
  apply (annotate_draws_in_order Reference.lib 0%nat 1%nat [Reference.dog; Reference.sofa]
           (VInt 5) Reference.loaded Reference.image); [ reflexivity | vm_compute; reflexivity ].
Defined.

Lemma annotate_floor_thickness_witness :
  heap Reference.loaded !! 0%nat = Some Reference.image /\
  (N.max 2 3 < 2 ^ 52)%N /\
  int_truediv (Z.max (Z.of_N 2) (Z.of_N 3)) 100 = Ok (Z.of_N (N.max 2 3) / 100).
Proof.
  split; [ reflexivity | ]. split; [ reflexivity | ].
  apply (proj1 (annotate_floor_thickness Reference.lib 0%nat [Reference.dog] Reference.loaded
                  Reference.image 2%N 3%N [3%N] eq_refl eq_refl eq_refl)).
Defined.

Lemma predict_missing_file_witness :
  cvtColor_rejects_None Reference.lib /\ imread_missing Reference.lib /\
  files Reference.start !! ("/data/images/" +:+ "tree.png") = None /\
  exists e,
    cv_cvtColor Reference.lib None (COLOR_BGR2RGB Reference.lib) = Raise e /\
    outcome (predict Reference.lib options "tree.png" Reference.start) = Raise e /\
    new_calls (predict Reference.lib options "tree.png") Reference.start
    = [Call_imread ("/data/images/" +:+ "tree.png") (IMREAD_COLOR Reference.lib);
       Call_cvtColor None (COLOR_BGR2RGB Reference.lib)] /\
    heap (final (predict Reference.lib options "tree.png" Reference.start))
    = heap Reference.start.
Proof.
  split; [ exact reference_cvtColor_rejects_None | ].
  split; [ exact reference_imread_missing | ].
  split; [ reflexivity | ].
  apply (predict_missing_file Reference.lib options "tree.png" Reference.start
           reference_cvtColor_rejects_None reference_imread_missing).
  reflexivity.
Defined.

Lemma predict_returns_the_detections_witness :
  outcome (predict Reference.lib options "cat.jpg" Reference.start)
  = Ok [Reference.detection "dog" float_0_1 0 0 2 1] /\
  exists image w1 a,
    loadImage Reference.lib ("/data/images/" +:+ "cat.jpg") Reference.start = (Ok image, w1) /\
    heap w1 !! image = Some a /\
    tfnet_return_predict Reference.lib options a
    = Ok [Reference.detection "dog" float_0_1 0 0 2 1] /\
    heap (final (predict Reference.lib options "cat.jpg" Reference.start)) !! image = Some a.
Proof.
  assert (H : outcome (predict Reference.lib options "cat.jpg" Reference.start)
              = Ok [Reference.detection "dog" float_0_1 0 0 2 1]) by (vm_compute; reflexivity).
  split; [ exact H | ].
  exact (predict_returns_the_detections Reference.lib options "cat.jpg" Reference.start _ H).
Defined.

Lemma predict_keeps_store_witness :
  heap Reference.loaded !! 0%nat = Some Reference.image /\
  heap (final (predict Reference.lib options "cat.jpg" Reference.loaded)) !! 0%nat
  = Some Reference.image.
Proof.
  split; [ reflexivity | ].
  apply (predict_keeps_store Reference.lib options "cat.jpg" Reference.loaded 0%nat
           Reference.image).
  reflexivity.
Defined.

Lemma notebook_keeps_loaded_image_witness :
  cell_load Reference.lib Reference.start
  = (Ok 1%nat, final (cell_load Reference.lib Reference.start)) /\
  heap (final (cell_load Reference.lib Reference.start)) !! 1%nat = Some Reference.image /\
  heap (final (notebook Reference.lib [] Reference.start)) !! 1%nat = Some Reference.image.
Proof.
  assert (H1 : cell_load Reference.lib Reference.start
               = (Ok 1%nat, final (cell_load Reference.lib Reference.start)))
    by (vm_compute; reflexivity).
  assert (H2 : heap (final (cell_load Reference.lib Reference.start)) !! 1%nat
               = Some Reference.image) by (vm_compute; reflexivity).
  split; [ exact H1 | ]. split; [ exact H2 | ].
  exact (notebook_keeps_loaded_image Reference.lib [] Reference.start _ 1%nat 1%nat
           Reference.image H1 H2).
Defined.

Lemma routes_differ_on_missing_file_witness :
  cvtColor_rejects_None Reference.lib /\ imread_missing Reference.lib /\
  files Reference.start !! "nowhere.jpg" = None /\
  byte_route Reference.lib "nowhere.jpg" Reference.start
  = (Raise (FileNotFoundError "nowhere.jpg"), logged (Call_open "nowhere.jpg") Reference.start).
Proof.
  split; [ exact reference_cvtColor_rejects_None | ].
  split; [ exact reference_imread_missing | ].
  split; [ reflexivity | ].
  apply (routes_differ_on_missing_file Reference.lib "nowhere.jpg" Reference.start
           reference_cvtColor_rejects_None reference_imread_missing).
  reflexivity.
Defined.

Lemma loadImage_twice_witness :
  loadImage Reference.lib "otto.jpg" Reference.start
  = (Ok 1%nat, final (loadImage Reference.lib "otto.jpg" Reference.start)) /\
  exists r2 w2,
    loadImage Reference.lib "otto.jpg" (final (loadImage Reference.lib "otto.jpg" Reference.start))
    = (Ok r2, w2) /\
    r2 <> 1%nat /\
    heap w2 !! r2 = heap (final (loadImage Reference.lib "otto.jpg" Reference.start)) !! 1%nat /\
    heap w2 !! 1%nat = heap (final (loadImage Reference.lib "otto.jpg" Reference.start)) !! 1%nat /\
    is_Some (heap (final (loadImage Reference.lib "otto.jpg" Reference.start)) !! 1%nat).
Proof.
  assert (H : loadImage Reference.lib "otto.jpg" Reference.start
              = (Ok 1%nat, final (loadImage Reference.lib "otto.jpg" Reference.start)))
    by (vm_compute; reflexivity).
  split; [ exact H | ].
  exact (loadImage_twice Reference.lib "otto.jpg" Reference.start _ 1%nat H).
Defined.

Lemma loaded_image_fits_the_cells_witness :
  imread_color Reference.lib /\ cvtColor_same_size Reference.lib /\
  cvtColor_rejects_None Reference.lib /\
  loadImage Reference.lib "otto.jpg" Reference.start
  = (Ok 1%nat, final (loadImage Reference.lib "otto.jpg" Reference.start)) /\
  exists t, default_thickness 1%nat (final (loadImage Reference.lib "otto.jpg" Reference.start))
            = (Ok (VInt t), final (loadImage Reference.lib "otto.jpg" Reference.start)).
Proof.
  assert (H : loadImage Reference.lib "otto.jpg" Reference.start
              = (Ok 1%nat, final (loadImage Reference.lib "otto.jpg" Reference.start)))
    by (vm_compute; reflexivity).
  split; [ exact reference_imread_color | ].
  split; [ exact reference_cvtColor_same_size | ].
  split; [ exact reference_cvtColor_rejects_None | ].
  split; [ exact H | ].
  exact (proj1 (loaded_image_fits_the_cells Reference.lib "otto.jpg" Reference.start _ 1%nat
                  reference_imread_color reference_cvtColor_same_size
                  reference_cvtColor_rejects_None H)).
Defined.

Lemma annotate_missing_topleft_witness :
  (∅ : gmap string pyval) !! "topleft" = None /\
  outcome (annotate Reference.lib 0%nat [Reference.dog] VNone Reference.loaded) = Ok 1%nat /\
  annotate Reference.lib 0%nat ([Reference.dog] ++ VDict ∅ :: [Reference.sofa]) VNone
    Reference.loaded
  = (Raise (KeyError "topleft"),
     final (annotate Reference.lib 0%nat [Reference.dog] VNone Reference.loaded)).
Proof.
  assert (H : outcome (annotate Reference.lib 0%nat [Reference.dog] VNone Reference.loaded)
              = Ok 1%nat) by (vm_compute; reflexivity).
  split; [ reflexivity | ]. split; [ exact H | ].
  exact (annotate_missing_topleft Reference.lib 0%nat 1%nat [Reference.dog] [Reference.sofa]
           ∅ VNone Reference.loaded eq_refl H).
Defined.
